(** * Gmail OAuth backend (main.py): a shallow embedding and its properties

    The service of [main.py] stores OAuth credentials in the
    [gmail_tokens] table, refreshes them when they expire, sends mail through
    the provider's API and drafts replies to inbound mail, logging each draft
    in [email_logs].

    The handlers are embedded as functions in a state-and-exception monad over
    a [world] (the two tables and the trace of effects performed so far).
    Everything the handlers cannot control — the clock, the HTTP peers, the
    timestamps the store assigns, the text generation service — is an oracle
    of the environment [env], indexed by the number of effects already
    performed, so that two calls of the same primitive may answer
    differently.

    The standard output is taken to encode in UTF-8.  What [print] writes
    is not kept, but a [print] that cannot encode its text raises, and that
    is modelled: a string is written code point by code point, so a lone
    surrogate in it raises [UnicodeEncodeError]; the text of any other value
    comes from [repr], which escapes surrogates, and is always written.  The
    [print] of line 144 writes a constant and never raises.

    What is left out: failures of the store itself: a selection and an
    insertion always go through.  The rows of [gmail_tokens] are typed as the
    handlers write them ([expires_at] an integer), and the ordering of the
    selection, which the program leaves to the store, is a stable descending
    sort on [created_at]. *)

From Stdlib Require Import QArith String Ascii Lia Lqa.
From stdpp Require Import base list gmap.

Set Warnings "-register-all".
#[local] Open Scope Z_scope.

(** ** Python values *)

(** A [str] is a sequence of Unicode code points. *)
Definition pystr := list N.

(** The code points of an ASCII literal. *)
Definition py (s : string) : pystr :=
  map N_of_ascii (list_ascii_of_string s).

(** A [bytes] object; every element is below 256. *)
Definition pybytes := list N.

(** A [float]: the finite ones are the rationals they denote. *)
Inductive pyfloat :=
| Finite (q : Q)
| Infinite (negative : bool)
| NaN.

(** What [response.json()] can return. *)
Inductive jvalue :=
| JNull
| JBool (b : bool)
| JInt (z : Z)
| JFloat (f : pyfloat)
| JStr (s : pystr)
| JList (l : list jvalue)
| JDict (d : gmap pystr jvalue).

(** The exceptions the handlers raise or let through.  [HTTPException] is
    FastAPI's; the others are Python's or the client libraries'. *)
Inductive exn :=
| HTTPException (status : Z) (detail : jvalue)
| KeyError (key : pystr)
| TypeError
| ValueError
| OverflowError
| IndexError
| UnicodeEncodeError
| UnicodeDecodeError
| RequestException
| JSONDecodeError
| OpenAIError.

Inductive result (A : Type) :=
| Ok (a : A)
| Raise (e : exn).
Arguments Ok {A} a.
Arguments Raise {A} e.

(** [int(x)] of a float truncates towards zero. *)
Definition trunc (q : Q) : Z := Z.quot (Qnum q) (Zpos (Qden q)).

(** [e > t] for an [int] [e] and a [float] [t]; Python compares the two
    exactly. *)
Definition int_gt_float (e : Z) (t : Q) : bool := negb (Qle_bool (inject_Z e) t).

Fixpoint startswith (p s : pystr) : bool :=
  match p, s with
  | [], _ => true
  | _ :: _, [] => false
  | a :: p', b :: s' => bool_decide (a = b) && startswith p' s'
  end.

(** [p in s] for two strings. *)
Fixpoint substring (p s : pystr) : bool :=
  startswith p s ||
  match s with
  | [] => false
  | _ :: s' => substring p s'
  end.

(** [k in v] for a string [k]. *)
Definition py_in (k : pystr) (v : jvalue) : result bool :=
  match v with
  | JDict d => Ok (bool_decide (is_Some (d !! k)))
  | JList l =>
      Ok (existsb (fun x => match x with
                            | JStr s => bool_decide (s = k)
                            | _ => false
                            end) l)
  | JStr s => Ok (substring k s)
  | JNull | JBool _ | JInt _ | JFloat _ => Raise TypeError
  end.

(** [v[k]] for a string [k]. *)
Definition py_getitem (v : jvalue) (k : pystr) : result jvalue :=
  match v with
  | JDict d =>
      match d !! k with
      | Some x => Ok x
      | None => Raise (KeyError k)
      end
  | _ => Raise TypeError
  end.

(** ** Encodings *)

#[local] Open Scope N_scope.

(** The UTF-8 bytes of one code point; surrogates (and numbers that are no
    code point) cannot be encoded. *)
Definition utf8_encode_cp (c : N) : option pybytes :=
  if c <? 0x80 then Some [c]
  else if c <? 0x800 then
    Some [N.lor 0xC0 (N.shiftr c 6); N.lor 0x80 (N.land c 0x3F)]
  else if c <? 0x10000 then
    if (0xD800 <=? c) && (c <=? 0xDFFF) then None
    else Some [N.lor 0xE0 (N.shiftr c 12);
               N.lor 0x80 (N.land (N.shiftr c 6) 0x3F);
               N.lor 0x80 (N.land c 0x3F)]
  else if c <? 0x110000 then
    Some [N.lor 0xF0 (N.shiftr c 18);
          N.lor 0x80 (N.land (N.shiftr c 12) 0x3F);
          N.lor 0x80 (N.land (N.shiftr c 6) 0x3F);
          N.lor 0x80 (N.land c 0x3F)]
  else None.

(** [s.encode("utf-8")] *)
Fixpoint utf8_encode (s : pystr) : result pybytes :=
  match s with
  | [] => Ok []
  | c :: s' =>
      match utf8_encode_cp c, utf8_encode s' with
      | Some bs, Ok rest => Ok (bs ++ rest)
      | None, _ => Raise UnicodeEncodeError
      | _, Raise e => Raise e
      end
  end.

Definition continuation (b : N) : bool := (0x80 <=? b) && (b <=? 0xBF).

Definition utf8_cp2 (a b : N) : option N :=
  if (0xC2 <=? a) && (a <=? 0xDF) && continuation b then
    Some (N.lor (N.shiftl (N.land a 0x1F) 6) (N.land b 0x3F))
  else None.

Definition utf8_cp3 (a b c : N) : option N :=
  if (0xE0 <=? a) && (a <=? 0xEF) && continuation b && continuation c then
    let cp := N.lor (N.shiftl (N.land a 0x0F) 12)
                (N.lor (N.shiftl (N.land b 0x3F) 6) (N.land c 0x3F)) in
    if (cp <? 0x800) || ((0xD800 <=? cp) && (cp <=? 0xDFFF)) then None
    else Some cp
  else None.

Definition utf8_cp4 (a b c d : N) : option N :=
  if (0xF0 <=? a) && (a <=? 0xF4) && continuation b && continuation c
     && continuation d then
    let cp := N.lor (N.shiftl (N.land a 0x07) 18)
                (N.lor (N.shiftl (N.land b 0x3F) 12)
                   (N.lor (N.shiftl (N.land c 0x3F) 6) (N.land d 0x3F))) in
    if (cp <? 0x10000) || (0x10FFFF <? cp) then None else Some cp
  else None.

Definition decoded (c : option N) (rest : result pystr) : result pystr :=
  match c, rest with
  | Some c, Ok s => Ok (c :: s)
  | None, _ => Raise UnicodeDecodeError
  | _, Raise e => Raise e
  end.

(** [bs.decode("utf-8")]: strict, as Python's codec is (no overlong forms,
    no surrogates, nothing above U+10FFFF). *)
Fixpoint utf8_decode (bs : pybytes) : result pystr :=
  match bs with
  | [] => Ok []
  | a :: l1 =>
      if a <? 0x80 then decoded (Some a) (utf8_decode l1)
      else if a <? 0xE0 then
        match l1 with
        | b :: l2 => decoded (utf8_cp2 a b) (utf8_decode l2)
        | _ => Raise UnicodeDecodeError
        end
      else if a <? 0xF0 then
        match l1 with
        | b :: c :: l3 => decoded (utf8_cp3 a b c) (utf8_decode l3)
        | _ => Raise UnicodeDecodeError
        end
      else
        match l1 with
        | b :: c :: d :: l4 => decoded (utf8_cp4 a b c d) (utf8_decode l4)
        | _ => Raise UnicodeDecodeError
        end
  end.

(** The URL-safe alphabet of RFC 4648: [A-Z], [a-z], [0-9], [-], [_]. *)
Definition b64char (i : N) : N :=
  if i <? 26 then 65 + i
  else if i <? 52 then 97 + (i - 26)
  else if i <? 62 then 48 + (i - 52)
  else if i =? 62 then 45
  else 95.

Definition pad : N := 61.

(** [base64.urlsafe_b64encode(bs)] *)
Fixpoint urlsafe_b64encode (bs : pybytes) : pybytes :=
  match bs with
  | [] => []
  | [a] =>
      [b64char (N.shiftr a 2);
       b64char (N.shiftl (N.land a 3) 4);
       pad; pad]
  | [a; b] =>
      [b64char (N.shiftr a 2);
       b64char (N.lor (N.shiftl (N.land a 3) 4) (N.shiftr b 4));
       b64char (N.shiftl (N.land b 15) 2);
       pad]
  | a :: b :: c :: rest =>
      b64char (N.shiftr a 2)
      :: b64char (N.lor (N.shiftl (N.land a 3) 4) (N.shiftr b 4))
      :: b64char (N.lor (N.shiftl (N.land b 15) 2) (N.shiftr c 6))
      :: b64char (N.land c 63)
      :: urlsafe_b64encode rest
  end.

Definition b64index (c : N) : option N :=
  if (65 <=? c) && (c <=? 90) then Some (c - 65)
  else if (97 <=? c) && (c <=? 122) then Some (c - 97 + 26)
  else if (48 <=? c) && (c <=? 57) then Some (c - 48 + 52)
  else if c =? 45 then Some 62
  else if c =? 95 then Some 63
  else None.

(** The receiver's side: decoding of padded URL-safe base64, four symbols at
    a time; [None] on anything that is not such a text. *)
Fixpoint urlsafe_b64decode (cs : pybytes) : option pybytes :=
  match cs with
  | [] => Some []
  | p :: q :: r :: s :: rest =>
      match b64index p, b64index q with
      | Some i, Some j =>
          let b0 := N.lor (N.shiftl i 2) (N.shiftr j 4) in
          if s =? pad then
            match rest with
            | [] =>
                if r =? pad then Some [b0]
                else
                  match b64index r with
                  | Some k =>
                      Some [b0; N.lor (N.shiftl (N.land j 15) 4) (N.shiftr k 2)]
                  | None => None
                  end
            | _ => None
            end
          else
            match b64index r, b64index s, urlsafe_b64decode rest with
            | Some k, Some l, Some bs =>
                Some (b0
                      :: N.lor (N.shiftl (N.land j 15) 4) (N.shiftr k 2)
                      :: N.lor (N.shiftl (N.land k 3) 6) l
                      :: bs)
            | _, _, _ => None
            end
      | _, _ => None
      end
  | _ => None
  end.

#[local] Close Scope N_scope.

(** ** URL encoding *)

#[local] Open Scope N_scope.

(** The bytes [urllib.parse.quote] never escapes: letters, digits and
    [_.-~]. *)
Definition always_safe (b : N) : bool :=
  ((65 <=? b) && (b <=? 90)) || ((97 <=? b) && (b <=? 122))
  || ((48 <=? b) && (b <=? 57))
  || (b =? 95) || (b =? 46) || (b =? 45) || (b =? 126).

(** The digit [n] in upper-case hexadecimal. *)
Definition hex_digit (n : N) : N := if n <? 10 then 48 + n else 55 + n.

(** What [quote_plus] writes for one byte: itself when it is safe, [+] for
    a space, [%XX] otherwise. *)
Definition quote_byte (b : N) : pystr :=
  if always_safe b then [b]
  else if b =? 32 then [43]
  else [37; hex_digit (b / 16); hex_digit (b mod 16)].

(** [urllib.parse.quote_plus(s)] *)
Definition quote_plus (s : pystr) : result pystr :=
  match utf8_encode s with
  | Ok bs => Ok (concat (map quote_byte bs))
  | Raise e => Raise e
  end.

(** [sep.join(l)] *)
Fixpoint join (sep : pystr) (l : list pystr) : pystr :=
  match l with
  | [] => []
  | [x] => x
  | x :: rest => x ++ sep ++ join sep rest
  end.

(** [str(v)] for an [Optional[str]]. *)
Definition str_optional (o : option pystr) : pystr :=
  match o with
  | Some s => s
  | None => py "None"
  end.

(** The [key=value] texts of [urlencode]. *)
Fixpoint urlencode_pairs (query : list (pystr * option pystr))
    : result (list pystr) :=
  match query with
  | [] => Ok []
  | (k, v) :: rest =>
      match quote_plus k with
      | Raise e => Raise e
      | Ok k' =>
          match quote_plus (str_optional v) with
          | Raise e => Raise e
          | Ok v' =>
              match urlencode_pairs rest with
              | Raise e => Raise e
              | Ok l => Ok ((k' ++ [61] ++ v') :: l)
              end
          end
      end
  end.

(** [urllib.parse.urlencode(query)] for a dict of strings. *)
Definition urlencode (query : list (pystr * option pystr)) : result pystr :=
  match urlencode_pairs query with
  | Ok l => Ok (join [38] l)
  | Raise e => Raise e
  end.

(** The receiver's side: the value of a hexadecimal digit. *)
Definition hex_value (c : N) : option N :=
  if (48 <=? c) && (c <=? 57) then Some (c - 48)
  else if (65 <=? c) && (c <=? 70) then Some (c - 55)
  else if (97 <=? c) && (c <=? 102) then Some (c - 87)
  else None.

(** The receiver's side: [+] is a space, [%XX] a byte. *)
Fixpoint unquote_bytes (s : pystr) : option pybytes :=
  match s with
  | [] => Some []
  | c :: rest =>
      if c =? 37 then
        match rest with
        | h :: l :: rest' =>
            match hex_value h, hex_value l, unquote_bytes rest' with
            | Some a, Some b, Some bs => Some (16 * a + b :: bs)
            | _, _, _ => None
            end
        | _ => None
        end
      else
        match unquote_bytes rest with
        | Some bs => Some ((if c =? 43 then 32 else c) :: bs)
        | None => None
        end
  end.

Definition unquote_plus (s : pystr) : option pystr :=
  match unquote_bytes s with
  | Some bs =>
      match utf8_decode bs with
      | Ok t => Some t
      | Raise _ => None
      end
  | None => None
  end.

(** The text up to the first [sep], and the text after it. *)
Fixpoint split_first (sep : N) (s : pystr) : option (pystr * pystr) :=
  match s with
  | [] => None
  | c :: rest =>
      if c =? sep then Some ([], rest)
      else
        match split_first sep rest with
        | Some (a, b) => Some (c :: a, b)
        | None => None
        end
  end.

(** The texts between the [sep]s. *)
Fixpoint split_on (sep : N) (s : pystr) : list pystr :=
  match s with
  | [] => [[]]
  | c :: rest =>
      if c =? sep then [] :: split_on sep rest
      else
        match split_on sep rest with
        | x :: xs => (c :: x) :: xs
        | [] => [[c]]
        end
  end.

Definition parse_pair (s : pystr) : option (pystr * pystr) :=
  match split_first 61 s with
  | Some (k, v) =>
      match unquote_plus k, unquote_plus v with
      | Some k', Some v' => Some (k', v')
      | _, _ => None
      end
  | None => None
  end.

(** The receiver's side: the parameters of a query string. *)
Definition parse_query (q : pystr) : option (list (pystr * pystr)) :=
  mapM parse_pair (split_on 38 q).

#[local] Close Scope N_scope.

(** ** The environment *)

(** An outbound HTTP request: [requests.post(url, data=...)] sends a form,
    [requests.post(url, json=..., headers=...)] a JSON document. *)
Inductive request_body :=
| Form (fields : list (pystr * jvalue))
| Json (payload : jvalue).

Record request := {
  url : pystr;
  content : request_body;
  headers : list (pystr * pystr)
}.

(** A response: its status and what [.json()] gives (it raises on a body
    that is not JSON). *)
Record response := {
  status_code : Z;
  json : result jvalue
}.

(** The completion object of the text generation client, as far as the
    webhook reads it: [completion.choices[0].message.content]. *)
Record chat_message := { message_content : option pystr }.
Record choice := { message : chat_message }.
Record completion := { choices : list choice }.

Record chat_request := {
  model : pystr;
  messages : list (pystr * pystr);
  temperature : Q
}.

Record env := {
  GOOGLE_CLIENT_ID : option pystr;
  GOOGLE_CLIENT_SECRET : option pystr;
  GOOGLE_REDIRECT_URI : option pystr;
  (** [time.time()] *)
  time_time : nat -> Q;
  (** [requests.post]; it may raise instead of answering *)
  requests_post : nat -> request -> result response;
  (** the [created_at] the store gives to a row inserted now *)
  store_now : nat -> Z;
  (** [client.chat.completions.create] *)
  chat_completions_create : nat -> chat_request -> result completion;
  (** [int(s)] for a string [s]; the builtin's grammar is not this
      program's *)
  int_of_str : pystr -> result Z;
  (** [str(v)] for a value [v] that is not a string *)
  str_of : jvalue -> pystr;
  (** [str(e)] for an exception [e] raised by a client library *)
  str_exn : exn -> pystr
}.

(** [int(x)] *)
Definition py_int (E : env) (v : jvalue) : result Z :=
  match v with
  | JInt z => Ok z
  | JBool b => Ok (if b then 1 else 0)
  | JFloat (Finite q) => Ok (trunc q)
  | JFloat (Infinite _) => Raise OverflowError
  | JFloat NaN => Raise ValueError
  | JStr s => int_of_str E s
  | JNull | JList _ | JDict _ => Raise TypeError
  end.

(** What an f-string puts for [{v}]. *)
Definition format_value (E : env) (v : jvalue) : pystr :=
  match v with
  | JStr s => s
  | _ => str_of E v
  end.

(** An [Optional[str]] as a value: [None] or the string.  An environment
    variable read by [os.getenv] is [None] when unset. *)
Definition optional_str (o : option pystr) : jvalue :=
  match o with
  | Some s => JStr s
  | None => JNull
  end.

(** ** The store *)

(** A row of [gmail_tokens].  The token fields hold whatever the provider's
    JSON had; [expires_at] is the integer the handlers compute;
    [created_at] is assigned by the store. *)
Record token_row := {
  user_email : pystr;
  access_token : jvalue;
  refresh_token : jvalue;
  token_type : jvalue;
  scope : jvalue;
  expires_at : Z;
  created_at : Z
}.

(** A row of [email_logs], as the webhook inserts it. *)
Module EmailLog.
Record row := {
  inbox_id : pystr;
  sender : pystr;
  subject : pystr;
  body : pystr;
  ai_reply : option pystr;
  confidence : Q;
  status : pystr
}.
End EmailLog.

(** The request models of the HTTP surface. *)
Module EmailPayload.
Record t := {
  inbox_id : pystr;
  sender : pystr;
  subject : pystr;
  body : pystr
}.
End EmailPayload.

Module SendEmailRequest.
Record t := {
  user_email : pystr;
  to : pystr;
  subject : pystr;
  message : pystr
}.
End SendEmailRequest.

Inductive event :=
| EvTime (t : Q)
| EvPost (rq : request) (r : result response)
| EvSelectTokens (email : pystr)
| EvInsertToken (row : token_row)
| EvInsertLog (row : EmailLog.row)
| EvChat (rq : chat_request) (r : result completion).

Record world := {
  gmail_tokens : list token_row;
  email_logs : list EmailLog.row;
  trace : list event
}.

Definition is_post (e : event) : bool :=
  match e with EvPost _ _ => true | _ => false end.

Definition is_insert (e : event) : bool :=
  match e with EvInsertToken _ | EvInsertLog _ => true | _ => false end.

(** ** The monad of the handlers *)

Definition M (A : Type) : Type := world -> result A * world.

Definition ret {A} (a : A) : M A := fun w => (Ok a, w).

Definition raise {A} (e : exn) : M A := fun w => (Raise e, w).

Definition bind {A B} (m : M A) (f : A -> M B) : M B :=
  fun w =>
    match m w with
    | (Ok a, w') => f a w'
    | (Raise e, w') => (Raise e, w')
    end.

Definition lift {A} (r : result A) : M A := fun w => (r, w).

(** Writing the string [s] to the standard output: nothing of the text is
    kept; it raises when the text cannot be encoded. *)
Definition written (s : pystr) : result unit :=
  match utf8_encode s with
  | Ok _ => Ok tt
  | Raise e => Raise e
  end.

(** Writing the JSON value [v]: a string is written as it is; the text of
    any other value is its [repr], in which the strings are quoted with
    their surrogates escaped, and can always be encoded (a number is one
    the JSON decoder read, so it has a decimal text). *)
Definition shown (v : jvalue) : result unit :=
  match v with
  | JStr s => written s
  | JNull | JBool _ | JInt _ | JFloat _ | JList _ | JDict _ => Ok tt
  end.

(** [print(s)] for a string [s] *)
Definition print_text (s : pystr) : M unit := lift (written s).

(** [print(label, v)] for a constant ASCII [label] and a JSON value [v] *)
Definition print_value (v : jvalue) : M unit := lift (shown v).

Notation "x <- m ;; k" := (bind m (fun x => k))
  (at level 100, m at next level, right associativity).
Notation "m ;;; k" := (bind m (fun _ => k))
  (at level 100, right associativity).

Definition emit (e : event) (w : world) : world :=
  {| gmail_tokens := gmail_tokens w;
     email_logs := email_logs w;
     trace := trace w ++ [e] |}.

Definition now (w : world) : nat := length (trace w).

(** ** Primitive effects *)

Section Handlers.

Variable E : env.

(** [time.time()] *)
Definition time_now : M Q :=
  fun w =>
    let t := time_time E (now w) in
    (Ok t, emit (EvTime t) w).

(** [requests.post(...)] *)
Definition post (rq : request) : M response :=
  fun w =>
    let r := requests_post E (now w) rq in
    (r, emit (EvPost rq r) w).

(** [.eq("user_email", email)] *)
Definition eq_user_email (email : pystr) (rows : list token_row) : list token_row :=
  filter (fun r => user_email r = email) rows.

(** [.order("created_at", desc=True)]: a stable sort, greatest [created_at]
    first.  [insert_desc] puts a row in front of the first row that is not
    newer. *)
Fixpoint insert_desc (r : token_row) (l : list token_row) : list token_row :=
  match l with
  | [] => [r]
  | x :: l' =>
      if created_at x <=? created_at r then r :: l else x :: insert_desc r l'
  end.

Definition order_created_at_desc (rows : list token_row) : list token_row :=
  foldr insert_desc [] rows.

(** [supabase.table("gmail_tokens").select("*").eq("user_email", email)
      .order("created_at", desc=True).limit(1).execute()]; the value is
    [result.data]. *)
Definition select_latest_token (email : pystr) : M (list token_row) :=
  fun w =>
    (Ok (take 1 (order_created_at_desc (eq_user_email email (gmail_tokens w)))),
     emit (EvSelectTokens email) w).

(** [supabase.table("gmail_tokens").insert({...}).execute()]: the row is
    appended, with the [created_at] the store assigns. *)
Definition insert_token (email : pystr) (access refresh type_ scope_ : jvalue)
    (expires : Z) : M unit :=
  fun w =>
    let row := {| user_email := email;
                  access_token := access;
                  refresh_token := refresh;
                  token_type := type_;
                  scope := scope_;
                  expires_at := expires;
                  created_at := store_now E (now w) |} in
    (Ok tt,
     {| gmail_tokens := gmail_tokens w ++ [row];
        email_logs := email_logs w;
        trace := trace w ++ [EvInsertToken row] |}).

(** [supabase.table("email_logs").insert({...}).execute()] *)
Definition insert_log (row : EmailLog.row) : M unit :=
  fun w =>
    (Ok tt,
     {| gmail_tokens := gmail_tokens w;
        email_logs := email_logs w ++ [row];
        trace := trace w ++ [EvInsertLog row] |}).

(** [client.chat.completions.create(...)] *)
Definition chat_create (rq : chat_request) : M completion :=
  fun w =>
    let r := chat_completions_create E (now w) rq in
    (r, emit (EvChat rq r) w).

(** ** Step 1: the authorization URL *)

(** [not v] for an [Optional[str]]: [None] and the empty string. *)
Definition falsy (o : option pystr) : bool :=
  match o with
  | None | Some [] => true
  | Some (_ :: _) => false
  end.

Definition base_url : pystr := py "https://accounts.google.com/o/oauth2/v2/auth".

(** Lines 71-78. *)
Definition oauth_params : list (pystr * option pystr) :=
  [ (py "client_id", GOOGLE_CLIENT_ID E);
    (py "redirect_uri", GOOGLE_REDIRECT_URI E);
    (py "response_type", Some (py "code"));
    (py "access_type", Some (py "offline"));
    (py "prompt", Some (py "consent"));
    (py "scope", Some (py "https://www.googleapis.com/auth/gmail.send")) ].

Definition connect_gmail (client_id : pystr) : result jvalue :=
  if falsy (GOOGLE_CLIENT_ID E) || falsy (GOOGLE_REDIRECT_URI E) then
    Raise (HTTPException 500
             (JStr (py "Google OAuth environment variables missing")))
  else
    match urlencode oauth_params with
    | Ok q => Ok (JDict (<[py "oauth_url" := JStr (base_url ++ py "?" ++ q)]> ∅))
    | Raise e => Raise e
    end.


(** ** Step 3: token refreshing *)

Definition token_url : pystr := py "https://oauth2.googleapis.com/token".

(** The form of the refresh exchange (lines 147-152). *)
Definition refresh_request (record : token_row) : request :=
  {| url := token_url;
     content := Form [ (py "client_id", optional_str (GOOGLE_CLIENT_ID E));
                       (py "client_secret", optional_str (GOOGLE_CLIENT_SECRET E));
                       (py "refresh_token", refresh_token record);
                       (py "grant_type", JStr (py "refresh_token")) ];
     headers := [] |}.

(** Lines 140-174: what [refresh_gmail_token] does once it holds
    [record = result.data[0]]. *)
Definition refresh_from_record (email : pystr) (record : token_row) : M jvalue :=
  t <- time_now ;;
  if int_gt_float (expires_at record) t then
    ret (access_token record)
  else
    response <- post (refresh_request record) ;;
    new_tokens <- lift (json response) ;;
    print_value new_tokens ;;;
    present <- lift (py_in (py "access_token") new_tokens) ;;
    if negb present then
      raise (HTTPException 400 new_tokens)
    else
      new_access <- lift (py_getitem new_tokens (py "access_token")) ;;
      t' <- time_now ;;
      expires_in <- lift (py_getitem new_tokens (py "expires_in")) ;;
      n <- lift (py_int E expires_in) ;;
      insert_token email new_access (refresh_token record) (token_type record)
        (scope record) (trunc t' + n) ;;;
      ret new_access.

Definition refresh_gmail_token (email : pystr) : M jvalue :=
  data <- select_latest_token email ;;
  match data with
  | [] => raise (HTTPException 404 (JStr (py "User has no stored Gmail tokens")))
  | record :: _ => refresh_from_record email record
  end.

(** ** Step 2: the OAuth callback *)

(** The form of the authorization-code exchange (lines 92-98). *)
Definition callback_request (code : pystr) : request :=
  {| url := token_url;
     content := Form [ (py "client_id", optional_str (GOOGLE_CLIENT_ID E));
                       (py "client_secret", optional_str (GOOGLE_CLIENT_SECRET E));
                       (py "code", JStr code);
                       (py "grant_type", JStr (py "authorization_code"));
                       (py "redirect_uri", optional_str (GOOGLE_REDIRECT_URI E)) ];
     headers := [] |}.

(** The identity every callback stores under (line 116). *)
Definition callback_user_email : pystr := py "prod.tkmusic@gmail.com".

Definition gmail_callback (code : pystr) : M jvalue :=
  response <- post (callback_request code) ;;
  tokens <- lift (json response) ;;
  print_value tokens ;;;
  present <- lift (py_in (py "access_token") tokens) ;;
  if negb present then
    raise (HTTPException 400 tokens)
  else
    access <- lift (py_getitem tokens (py "access_token")) ;;
    refresh <- lift (py_getitem tokens (py "refresh_token")) ;;
    type_ <- lift (py_getitem tokens (py "token_type")) ;;
    scope_ <- lift (py_getitem tokens (py "scope")) ;;
    expires_in <- lift (py_getitem tokens (py "expires_in")) ;;
    t <- time_now ;;
    n <- lift (py_int E expires_in) ;;
    insert_token callback_user_email access refresh type_ scope_ (trunc t + n) ;;;
    ret (JDict (<[py "status" := JStr (py "saved")]>
                 (<[py "email" := JStr callback_user_email]> ∅))).

(** ** Step 4: sending a message *)

Definition gmail_url : pystr :=
  py "https://gmail.googleapis.com/gmail/v1/users/me/messages/send".

Definition CRLF : pystr := [13%N; 10%N].

(** [f"To: {to_addr}\r\nSubject: {subject}\r\n\r\n{message_body}"] *)
Definition raw_email (to_addr subject message_body : pystr) : pystr :=
  py "To: " ++ to_addr ++ CRLF ++ py "Subject: " ++ subject ++ CRLF ++ CRLF
  ++ message_body.

(** The request of line 194, for an encoded message and a token. *)
Definition send_request (encoded_message : pystr) (access : jvalue) : request :=
  {| url := gmail_url;
     content := Json (JDict (<[py "raw" := JStr encoded_message]> ∅));
     headers := [ (py "Authorization", py "Bearer " ++ format_value E access);
                  (py "Content-Type", py "application/json") ] |}.

Definition send_gmail_message (email to_addr subject message_body : pystr)
    : M jvalue :=
  access <- refresh_gmail_token email ;;
  raw_bytes <- lift (utf8_encode (raw_email to_addr subject message_body)) ;;
  encoded_message <- lift (utf8_decode (urlsafe_b64encode raw_bytes)) ;;
  response <- post (send_request encoded_message access) ;;
  answered <- lift (json response) ;;
  print_value answered ;;;
  if negb (status_code response =? 200) then
    detail <- lift (json response) ;;
    raise (HTTPException 500 detail)
  else
    lift (json response).

(** ** Step 5: the send endpoint *)

Definition gmail_send (rq : SendEmailRequest.t) : M jvalue :=
  r <- send_gmail_message (SendEmailRequest.user_email rq)
         (SendEmailRequest.to rq) (SendEmailRequest.subject rq)
         (SendEmailRequest.message rq) ;;
  ret (JDict (<[py "status" := JStr (py "sent")]> (<[py "response" := r]> ∅))).

(** ** The email webhook *)

Definition system_prompt : pystr :=
  py "You are an assistant that writes clear, polite, professional email replies. "
  ++ py "Keep replies concise, friendly, and helpful. "
  ++ py "If you are missing key information, ask for clarification.".

Definition LF : pystr := [10%N].

Definition user_prompt (payload : EmailPayload.t) : pystr :=
  LF ++ py "    Write a professional reply email." ++ LF
  ++ LF
  ++ py "    Incoming email:" ++ LF
  ++ py "    From: " ++ EmailPayload.sender payload ++ LF
  ++ py "    Subject: " ++ EmailPayload.subject payload ++ LF
  ++ py "    Body:" ++ LF
  ++ py "    " ++ EmailPayload.body payload ++ LF
  ++ LF
  ++ py "    Reply in a helpful, polite way." ++ LF
  ++ py "    ".

Definition draft_request (payload : EmailPayload.t) : chat_request :=
  {| model := py "gpt-4o-mini";
     messages := [ (py "system", system_prompt);
                   (py "user", user_prompt payload) ];
     temperature := 1 # 2 |}.

(** [try: m  except Exception: h] *)
Definition try_except {A} (m : M A) (h : exn -> M A) : M A :=
  fun w =>
    match m w with
    | (Ok a, w') => (Ok a, w')
    | (Raise e, w') => h e w'
    end.

(** [l[0]] *)
Definition first {A} (l : list A) : result A :=
  match l with
  | x :: _ => Ok x
  | [] => Raise IndexError
  end.

Definition fallback_reply : pystr := py "There was an error generating a reply.".

(** [str(e)] for what the [try] block can raise.  [IndexError] stands for
    the exception of a list index out of range, which [choices[0]] raises,
    and its text is Python's; the text of any other exception is the
    environment's. *)
Definition exn_text (e : exn) : pystr :=
  match e with
  | IndexError => py "list index out of range"
  | _ => str_exn E e
  end.

Definition process_email (payload : EmailPayload.t) : M jvalue :=
  drafted <-
    try_except
      (completion <- chat_create (draft_request payload) ;;
       c <- lift (first (choices completion)) ;;
       ret (message_content (message c), py "draft"))
      (fun e => print_text (exn_text e) ;;;
                ret (Some fallback_reply, py "draft")) ;;
  let '(reply, status) := drafted in
  insert_log {| EmailLog.inbox_id := EmailPayload.inbox_id payload;
                EmailLog.sender := EmailPayload.sender payload;
                EmailLog.subject := EmailPayload.subject payload;
                EmailLog.body := EmailPayload.body payload;
                EmailLog.ai_reply := reply;
                EmailLog.confidence := 8 # 10;
                EmailLog.status := status |} ;;;
  ret (JDict (<[py "status" := JStr status]>
               (<[py "reply" := optional_str reply]> ∅))).

End Handlers.

(** ** Concrete scenarios *)

Module Scenario.

Definition alice : pystr := py "alice@example.com".
Definition bob : pystr := py "bob@example.com".

(** A row of [email] that expires at [e], created at [c]. *)
Definition row_of (email : pystr) (e c : Z) : token_row :=
  {| user_email := email;
     access_token := JStr (py "A1");
     refresh_token := JStr (py "R1");
     token_type := JStr (py "Bearer");
     scope := JStr (py "https://www.googleapis.com/auth/gmail.send");
     expires_at := e;
     created_at := c |}.

Definition old_row : token_row := row_of alice 999 10.

Definition store_of (rows : list token_row) : world :=
  {| gmail_tokens := rows; email_logs := []; trace := [] |}.

Definition w0 : world := store_of [old_row].

(** An environment whose clock reads [999 + n] at the effect number [n] (so
    that the first clock reading of a refresh, the effect number 1, is
    1000), whose HTTP peers always answer [r], whose store stamps
    [20 + n], and whose text generation answers [g]. *)
Definition env_of (r : result response) (g : result completion) : env :=
  {| GOOGLE_CLIENT_ID := Some (py "id");
     GOOGLE_CLIENT_SECRET := Some (py "secret");
     GOOGLE_REDIRECT_URI := Some (py "https://app.example.com/cb");
     time_time := fun n => inject_Z (999 + Z.of_nat n);
     requests_post := fun _ _ => r;
     store_now := fun n => 20 + Z.of_nat n;
     chat_completions_create := fun _ _ => g;
     int_of_str := fun _ => Raise ValueError;
     str_of := fun _ => [];
     str_exn := fun _ => py "Connection error." |}.

(** The provider answers with the status [code] and the JSON object [d]. *)
Definition answer (d : gmap pystr jvalue) (code : Z) : env :=
  env_of (Ok {| status_code := code; json := Ok (JDict d) |}) (Raise OpenAIError).

(** The provider answers with the status [code] and a body that is not
    JSON. *)
Definition answer_not_json (code : Z) : env :=
  env_of (Ok {| status_code := code; json := Raise JSONDecodeError |})
    (Raise OpenAIError).

(** The provider answers with the status [code] and the JSON [j]. *)
Definition answer_json (j : jvalue) (code : Z) : env :=
  env_of (Ok {| status_code := code; json := Ok j |}) (Raise OpenAIError).

(** The text generation fails with an exception whose text is a lone
    surrogate. *)
Definition unprintable_failure : env :=
  {| GOOGLE_CLIENT_ID := Some (py "id");
     GOOGLE_CLIENT_SECRET := Some (py "secret");
     GOOGLE_REDIRECT_URI := Some (py "https://app.example.com/cb");
     time_time := fun n => inject_Z (999 + Z.of_nat n);
     requests_post := fun _ _ => Raise RequestException;
     store_now := fun n => 20 + Z.of_nat n;
     chat_completions_create := fun _ _ => Raise OpenAIError;
     int_of_str := fun _ => Raise ValueError;
     str_of := fun _ => [];
     str_exn := fun _ => [0xD83D]%N |}.

(** [{access_token: "A2", expires_in: 3600}] *)
Definition tokens_A2 : gmap pystr jvalue :=
  <[py "access_token" := JStr (py "A2")]> (<[py "expires_in" := JInt 3600]> ∅).

(** The same, with a rotated refresh token. *)
Definition tokens_rotated : gmap pystr jvalue :=
  <[py "refresh_token" := JStr (py "R2")]> tokens_A2.

(** [{error: "invalid_grant"}] *)
Definition tokens_error : gmap pystr jvalue :=
  <[py "error" := JStr (py "invalid_grant")]> ∅.

(** [{access_token: "A1"}]: an answer to the code exchange that has nothing
    but the access token. *)
Definition tokens_bare : gmap pystr jvalue :=
  <[py "access_token" := JStr (py "A1")]> ∅.

End Scenario.

(** ** More scenarios *)

Module Cases.

Import Scenario.

(** A complete answer to the code exchange. *)
Definition tokens_full : gmap pystr jvalue :=
  <[py "refresh_token" := JStr (py "R1")]>
    (<[py "token_type" := JStr (py "Bearer")]>
       (<[py "scope" := JStr (py "gmail.send")]> tokens_A2)).

Definition full_response : response :=
  {| status_code := 200; json := Ok (JDict tokens_full) |}.

End Cases.

(** ** Definitions the properties are stated with *)

(** The record [refresh_gmail_token] works from: the first row of the
    ordered selection. *)
Definition latest_record (email : pystr) (rows : list token_row)
    : option token_row :=
  head (order_created_at_desc (eq_user_email email rows)).

(** The events a run added to the trace. *)
Definition new_events (w w' : world) : list event :=
  drop (length (trace w)) (trace w').

(** The refresh token the specification asks the new record to carry: the
    one the provider issued, if it issued one, else the old record's. *)
Definition spec_refresh_token (old : token_row) (d : gmap pystr jvalue) : jvalue :=
  match d !! py "refresh_token" with
  | Some x => x
  | None => refresh_token old
  end.

(** The row a successful exchange appends. *)
Definition refreshed_row (E : env) (email : pystr) (r : token_row) (a : jvalue) (n : Z)
    (w : world) : token_row :=
  {| user_email := email;
     access_token := a;
     refresh_token := refresh_token r;
     token_type := token_type r;
     scope := scope r;
     expires_at := trunc (time_time E (2 + now w)) + n;
     created_at := store_now E (3 + now w) |}.

(** What the completion call yielded, if it yielded a reply:
    [completion.choices[0].message.content]. *)
Definition generated (r : result completion) : option (option pystr) :=
  match r with
  | Ok c =>
      match choices c with
      | ch :: _ => Some (message_content (message ch))
      | [] => None
      end
  | Raise _ => None
  end.

(** The fields the callback reads after [access_token], in the order in
    which it reads them. *)
Definition callback_fields : list pystr :=
  [py "refresh_token"; py "token_type"; py "scope"; py "expires_in"].

(** [w] with the events [evs], the token rows [rows] and the log rows
    [logs] appended. *)
Definition extend (w : world) (evs : list event) (rows : list token_row)
    (logs : list EmailLog.row) : world :=
  {| gmail_tokens := gmail_tokens w ++ rows;
     email_logs := email_logs w ++ logs;
     trace := trace w ++ evs |}.

(** The effects a refresh from the record [r] may perform. *)
Definition refresh_effect (E : env) (r : token_row) (e : event) : Prop :=
  match e with
  | EvTime _ | EvSelectTokens _ | EvInsertToken _ => True
  | EvPost rq _ => rq = refresh_request E r
  | EvInsertLog _ | EvChat _ _ => False
  end.

(** What the callback answers once the row is stored. *)
Definition callback_saved : jvalue :=
  JDict (<[py "status" := JStr (py "saved")]>
           (<[py "email" := JStr callback_user_email]> ∅)).

(** A request posted to the send URL. *)
Definition is_mail_post (e : event) : bool :=
  match e with
  | EvPost rq _ => bool_decide (url rq = gmail_url)
  | _ => false
  end.

(** A surrogate code point. *)
Definition surrogate (c : N) : Prop := (0xD800 <= c <= 0xDFFF)%N.

(** The answer of the send endpoint for the provider's JSON [j]. *)
Definition sent (j : jvalue) : jvalue :=
  JDict (<[py "status" := JStr (py "sent")]> (<[py "response" := j]> ∅)).

(** A string [s.encode("utf-8")] accepts. *)
Definition encodable (s : pystr) : Prop := exists bs, utf8_encode s = Ok bs.

(** *** Exhaustive checks over bytes and code points *)

#[local] Open Scope N_scope.

(** [P] holds of every number below [n]. *)
Definition all_below (n : N) (P : N -> bool) : bool :=
  N.recursion true (fun i acc => acc && P i) n.

Definition is_some_N (o : option N) (c : N) : bool :=
  match o with
  | Some x => x =? c
  | None => false
  end.

(** The symbol [i] of the alphabet is read back as [i], and is not the
    padding. *)
Definition symbol_check (i : N) : bool :=
  is_some_N (b64index (b64char i)) i && negb (b64char i =? pad).

(** The sextets of the first two bytes of a group, and what the decoder
    makes of them. *)
Definition head_check (a b : N) : bool :=
  let s0 := N.shiftr a 2 in
  let s1 := N.lor (N.shiftl (N.land a 3) 4) (N.shiftr b 4) in
  let s1' := N.shiftl (N.land a 3) 4 in
  (s0 <? 64) && (s1 <? 64) && (s1' <? 64)
  && (N.lor (N.shiftl s0 2) (N.shiftr s1 4) =? a)
  && (N.lor (N.shiftl s0 2) (N.shiftr s1' 4) =? a)
  && (N.land s1 15 =? N.shiftr b 4).

(** The sextets of the last two bytes of a group. *)
Definition tail_check (b c : N) : bool :=
  let s2 := N.lor (N.shiftl (N.land b 15) 2) (N.shiftr c 6) in
  let s2' := N.shiftl (N.land b 15) 2 in
  let s3 := N.land c 63 in
  (s2 <? 64) && (s2' <? 64) && (s3 <? 64)
  && (N.lor (N.shiftl (N.shiftr b 4) 4) (N.shiftr s2 2) =? b)
  && (N.lor (N.shiftl (N.shiftr b 4) 4) (N.shiftr s2' 2) =? b)
  && (N.lor (N.shiftl (N.land s2 3) 6) s3 =? c).

(** For a code point that can be encoded: its bytes are bytes, and the
    decoder reads the code point back from them. *)
Definition utf8_check (c : N) : bool :=
  match utf8_encode_cp c with
  | None => true
  | Some [a] => (a <? 0x80) && is_some_N (Some a) c
  | Some [a; b] =>
      negb (a <? 0x80) && (a <? 0xE0) && (b <? 256)
      && is_some_N (utf8_cp2 a b) c
  | Some [a; b; c'] =>
      negb (a <? 0xE0) && (a <? 0xF0) && (b <? 256) && (c' <? 256)
      && is_some_N (utf8_cp3 a b c') c
  | Some [a; b; c'; d] =>
      negb (a <? 0xF0) && (a <? 256) && (b <? 256) && (c' <? 256)
      && (d <? 256) && is_some_N (utf8_cp4 a b c' d) c
  | Some _ => false
  end.

(** A character a query string is made of: a safe one, [%] or [+]. *)
Definition query_char (c : N) : bool :=
  always_safe c || (c =? 37) || (c =? 43).

(** For a byte [b]: what [quote_byte] writes is made of query characters,
    and is read back as [b]. *)
Definition quote_check (b : N) : bool :=
  forallb query_char (quote_byte b)
  && (if always_safe b then negb (b =? 37) && negb (b =? 43)
      else if b =? 32 then true
      else is_some_N (hex_value (hex_digit (b / 16))) (b / 16)
           && is_some_N (hex_value (hex_digit (b mod 16))) (b mod 16)
           && (16 * (b / 16) + b mod 16 =? b)).

(** A query character is neither [&] nor [=]. *)
Definition separator_check (c : N) : bool :=
  if query_char c then negb (c =? 38) && negb (c =? 61) else true.

(** A character of the authorization URL: a query character, or one of
    [& = : / ?]. *)
Definition url_char (c : N) : bool :=
  query_char c
  || (c =? 38) || (c =? 61) || (c =? 58) || (c =? 47) || (c =? 63).

#[local] Close Scope N_scope.

(** * Properties *)

(** ** The clock *)

Lemma int_gt_float_true e t : int_gt_float e t = true <-> (t < inject_Z e)%Q.
Proof.
  unfold int_gt_float. rewrite negb_true_iff, <- not_true_iff_false, Qle_bool_iff.
  split; [apply Qnot_le_lt | apply Qlt_not_le].
Qed.

Lemma int_gt_float_false e t : int_gt_float e t = false <-> (inject_Z e <= t)%Q.
Proof.
  unfold int_gt_float. rewrite negb_false_iff. apply Qle_bool_iff.
Qed.

(** ** The trace *)

Lemma length_snoc {A} (l : list A) x : length (l ++ [x]) = S (length l).
Proof. rewrite length_app; simpl. lia. Qed.

Lemma now_emit e w : now (emit e w) = S (now w).
Proof. apply length_snoc. Qed.

Lemma new_events_app w w' l : trace w' = trace w ++ l -> new_events w w' = l.
Proof. unfold new_events. intros ->. apply drop_app_length. Qed.

(** ** The ordered selection *)

Section Selection.

Lemma head_insert_desc r l :
  head (insert_desc r l) =
  Some (match head l with
        | Some x => if created_at x <=? created_at r then r else x
        | None => r
        end).
Proof.
  destruct l as [|x l]; simpl; [done|]. by destruct (created_at x <=? created_at r).
Qed.

Lemma order_head_maximal l r :
  head (order_created_at_desc l) = Some r ->
  r ∈ l /\ forall x, x ∈ l -> created_at x <= created_at r.
Proof.
  revert r. induction l as [|a l IH]; intros r; simpl; [done|].
  rewrite head_insert_desc.
  destruct (head (order_created_at_desc l)) as [m|] eqn:Hm.
  - destruct (IH m eq_refl) as [Hin Hmax].
    destruct (Z.leb_spec (created_at m) (created_at a)); intros [= <-].
    + split; [left|]. intros x [->|Hx]%elem_of_cons; [lia|].
      specialize (Hmax x Hx). lia.
    + split; [by right|]. intros x [->|Hx]%elem_of_cons; [lia|]. by apply Hmax.
  - intros [= <-]. destruct l as [|b l]; simpl in Hm.
    + split; [left|]. intros x [->|Hx]%elem_of_cons; [lia|]. inversion Hx.
    + rewrite head_insert_desc in Hm. discriminate.
Qed.

Lemma order_head_None l : head (order_created_at_desc l) = None -> l = [].
Proof.
  destruct l as [|a l]; simpl; [done|]. by rewrite head_insert_desc.
Qed.

Lemma latest_record_maximal email rows r :
  latest_record email rows = Some r ->
  r ∈ rows /\ user_email r = email /\
  forall x, x ∈ rows -> user_email x = email -> created_at x <= created_at r.
Proof.
  unfold latest_record, eq_user_email. intros [Hin Hmax]%order_head_maximal.
  apply list_elem_of_filter in Hin as [Hu Hin]. repeat split; [done..|].
  intros x Hx Hxu. apply Hmax, list_elem_of_filter. done.
Qed.

Lemma latest_record_exists email rows r0 :
  r0 ∈ rows -> user_email r0 = email -> is_Some (latest_record email rows).
Proof.
  intros Hin Hu. destruct (latest_record email rows) eqn:Hl; [by eexists|].
  apply order_head_None in Hl.
  assert (r0 ∈ eq_user_email email rows) as Hr
    by (apply list_elem_of_filter; done).
  rewrite Hl in Hr. inversion Hr.
Qed.

Lemma latest_record_None email rows :
  (forall r, r ∈ rows -> user_email r <> email) ->
  latest_record email rows = None.
Proof.
  intros H. destruct (latest_record email rows) as [r|] eqn:Hl; [|done].
  apply latest_record_maximal in Hl as (Hin & Hu & _). by destruct (H r Hin).
Qed.

(** [refresh_gmail_token], by what the selection gave. *)
Lemma refresh_gmail_token_unfold E email w :
  refresh_gmail_token E email w =
  match latest_record email (gmail_tokens w) with
  | Some r => refresh_from_record E email r (emit (EvSelectTokens email) w)
  | None =>
      (Raise (HTTPException 404 (JStr (py "User has no stored Gmail tokens"))),
       emit (EvSelectTokens email) w)
  end.
Proof.
  unfold refresh_gmail_token, latest_record, bind, select_latest_token.
  by destruct (order_created_at_desc _).
Qed.

End Selection.

(** ** Runs of the refresh *)

Section Refresh.

Variable E : env.

Lemma emit_emit_trace e1 e2 w :
  trace (emit e2 (emit e1 w)) = trace w ++ [e1; e2].
Proof. unfold emit; simpl. by rewrite <- app_assoc. Qed.

(** A record that is still valid is answered from, after one look at the
    clock. *)
Lemma refresh_from_record_valid email r w :
  (time_time E (now w) < inject_Z (expires_at r))%Q ->
  refresh_from_record E email r w =
  (Ok (access_token r), emit (EvTime (time_time E (now w))) w).
Proof.
  intros H%int_gt_float_true. unfold refresh_from_record, bind, time_now.
  cbn beta iota. by rewrite H.
Qed.

(** Closes a branch in which the run stopped on an exception, having added
    the events [l]. *)
Ltac stuck l :=
  exists l; cbn -[py]; rewrite <- ?app_assoc; split; [done | discriminate].

(** An expired record: the exchange is posted, whatever comes of it. *)
Lemma refresh_from_record_expired email r w :
  (inject_Z (expires_at r) <= time_time E (now w))%Q ->
  let rq := refresh_request E r in
  let answer := requests_post E (S (now w)) rq in
  exists rest,
    trace (refresh_from_record E email r w).2 =
      trace w ++ [EvTime (time_time E (now w)); EvPost rq answer] ++ rest /\
    forall a, (refresh_from_record E email r w).1 = Ok a ->
      exists resp j, answer = Ok resp /\ json resp = Ok j /\
                     py_getitem j (py "access_token") = Ok a.
Proof.
  intros H%int_gt_float_false rq answer.
  unfold refresh_from_record, bind, time_now, post, print_value, lift, raise,
    ret, insert_token.
  cbn beta iota. rewrite H, !now_emit. fold rq. fold answer.
  destruct answer as [resp|e]; [|stuck (@nil event)].
  destruct (json resp) as [j|e] eqn:Hj; cbn beta iota; [|stuck (@nil event)].
  destruct (shown j) as [[]|e]; cbn beta iota; [|stuck (@nil event)].
  destruct (py_in (py "access_token") j) as [[]|e]; cbn -[py];
    [|stuck (@nil event)..].
  destruct (py_getitem j (py "access_token")) as [a|e] eqn:Ha; cbn -[py];
    [|stuck (@nil event)].
  set (t' := time_time E _).
  destruct (py_getitem j (py "expires_in")) as [x|e]; cbn -[py];
    [|stuck ([EvTime t'])].
  destruct (py_int E x) as [n|e]; cbn -[py]; [|stuck ([EvTime t'])].
  eexists. split; [rewrite <- !app_assoc; reflexivity|].
  intros ? [= <-]. by exists resp, j.
Qed.

Lemma refresh_from_record_success email r w resp d a x n :
  (inject_Z (expires_at r) <= time_time E (now w))%Q ->
  requests_post E (S (now w)) (refresh_request E r) = Ok resp ->
  json resp = Ok (JDict d) ->
  d !! py "access_token" = Some a ->
  d !! py "expires_in" = Some x ->
  py_int E x = Ok n ->
  refresh_from_record E email r w =
  (Ok a,
   {| gmail_tokens := gmail_tokens w ++ [refreshed_row E email r a n w];
      email_logs := email_logs w;
      trace := trace w ++ [EvTime (time_time E (now w));
                           EvPost (refresh_request E r) (Ok resp);
                           EvTime (time_time E (2 + now w));
                           EvInsertToken (refreshed_row E email r a n w)] |}).
Proof.
  intros H%int_gt_float_false Hp Hj Ha Hx Hn.
  unfold refresh_from_record, bind, time_now, post, lift, raise, ret, insert_token.
  cbn beta iota. rewrite H, !now_emit, Hp. cbn beta iota. rewrite Hj.
  cbn -[py]. rewrite Ha, Hx. cbn -[py]. rewrite Hn. cbn -[py].
  rewrite !length_snoc, <- !app_assoc. reflexivity.
Qed.

Lemma refresh_from_record_rejected email r w resp j :
  (inject_Z (expires_at r) <= time_time E (now w))%Q ->
  requests_post E (S (now w)) (refresh_request E r) = Ok resp ->
  json resp = Ok j ->
  shown j = Ok tt ->
  py_in (py "access_token") j = Ok false ->
  refresh_from_record E email r w =
  (Raise (HTTPException 400 j),
   {| gmail_tokens := gmail_tokens w;
      email_logs := email_logs w;
      trace := trace w ++ [EvTime (time_time E (now w));
                           EvPost (refresh_request E r) (Ok resp)] |}).
Proof.
  intros H%int_gt_float_false Hp Hj Hs Hin.
  unfold refresh_from_record, bind, time_now, post, print_value, lift, raise,
    ret.
  cbn beta iota. rewrite H, !now_emit, Hp. cbn beta iota. rewrite Hj.
  cbn beta iota. rewrite Hs. cbn beta iota. rewrite Hin. cbn -[py].
  unfold emit; cbn -[py]. by rewrite <- !app_assoc.
Qed.

End Refresh.

(** ** The token lifecycle manager *)

Import Scenario.

(** C1 (amended): when the latest record of an identity is expired and the
    refresh exchange succeeds (the answer is a JSON object with an
    [access_token] and an [expires_in] that [int] accepts),
    [refresh_gmail_token] returns the new access token and appends one row:
    the new access token, [expires_at = int(time.time()) + int(expires_in)]
    read after the exchange, and [refresh_token], [token_type] and [scope]
    of the old record, whatever else the answer holds. *)
Theorem refresh_success_appends_record E email w r resp d a x n :
  latest_record email (gmail_tokens w) = Some r ->
  (inject_Z (expires_at r) <= time_time E (1 + now w))%Q ->
  requests_post E (2 + now w) (refresh_request E r) = Ok resp ->
  json resp = Ok (JDict d) ->
  d !! py "access_token" = Some a ->
  d !! py "expires_in" = Some x ->
  py_int E x = Ok n ->
  let row := {| user_email := email;
                access_token := a;
                refresh_token := refresh_token r;
                token_type := token_type r;
                scope := scope r;
                expires_at := trunc (time_time E (3 + now w)) + n;
                created_at := store_now E (4 + now w) |} in
  refresh_gmail_token E email w =
  (Ok a,
   {| gmail_tokens := gmail_tokens w ++ [row];
      email_logs := email_logs w;
      trace := trace w ++ [EvSelectTokens email;
                           EvTime (time_time E (1 + now w));
                           EvPost (refresh_request E r) (Ok resp);
                           EvTime (time_time E (3 + now w));
                           EvInsertToken row] |}).
Proof.
  intros Hl Ht Hp Hj Ha Hx Hn row.
  rewrite refresh_gmail_token_unfold, Hl.
  erewrite refresh_from_record_success by (rewrite ?now_emit; eauto).
  unfold refreshed_row. rewrite !now_emit. cbn -[py].
  by rewrite <- app_assoc.
Qed.

Lemma refresh_success_appends_record_witness :
  let E := answer tokens_A2 200 in
  let row := {| user_email := alice;
                access_token := JStr (py "A2");
                refresh_token := JStr (py "R1");
                token_type := JStr (py "Bearer");
                scope := JStr (py "https://www.googleapis.com/auth/gmail.send");
                expires_at := 1002 + 3600;
                created_at := 24 |} in
  refresh_gmail_token E alice w0 =
  (Ok (JStr (py "A2")),
   {| gmail_tokens := [old_row; row];
      email_logs := [];
      trace := [EvSelectTokens alice;
                EvTime (inject_Z 1000);
                EvPost (refresh_request E old_row)
                  (Ok {| status_code := 200; json := Ok (JDict tokens_A2) |});
                EvTime (inject_Z 1002);
                EvInsertToken row] |}).
Proof.
  intros E row.
  apply (refresh_success_appends_record E alice w0 old_row
           {| status_code := 200; json := Ok (JDict tokens_A2) |} tokens_A2
           (JStr (py "A2")) (JInt 3600) 3600).
  - reflexivity.
  - vm_compute. discriminate.
  - reflexivity.
  - reflexivity.
  - vm_compute. reflexivity.
  - vm_compute. reflexivity.
  - reflexivity.
Defined.

(** C1, as stated, fails: the provider rotates the refresh token (its answer
    carries ["R2"]), the exchange succeeds, and the row that is written
    still carries the old ["R1"]. *)
Lemma refresh_ignores_rotated_refresh_token :
  let E := answer tokens_rotated 200 in
  exists w' row,
    refresh_gmail_token E alice w0 = (Ok (JStr (py "A2")), w') /\
    last (gmail_tokens w') = Some row /\
    spec_refresh_token old_row tokens_rotated = JStr (py "R2") /\
    refresh_token row = JStr (py "R1") /\
    refresh_token row <> spec_refresh_token old_row tokens_rotated.
Proof.
  intros E. eexists _, _. split; [vm_compute; reflexivity|].
  split; [reflexivity|]. split; [vm_compute; reflexivity|].
  split; [reflexivity|]. vm_compute. discriminate.
Qed.

(** C2: the store holds one record of the identity, with refresh token
    ["R1"] and [expires_at] one second before the clock reading; the
    provider answers [{access_token: "A2", expires_in: 3600}].  Then
    [refresh_gmail_token] returns ["A2"], and the store holds exactly two
    records of the identity: the old one and a new one with access token
    ["A2"], refresh token ["R1"] and [expires_at] 3600 after the (truncated)
    clock reading taken at the refresh.  The new one is the latest as soon
    as the store stamps it later than the old one. *)
Theorem refresh_scenario_R1_A2 E email w r resp :
  eq_user_email email (gmail_tokens w) = [r] ->
  refresh_token r = JStr (py "R1") ->
  (inject_Z (expires_at r) == time_time E (1 + now w) - 1)%Q ->
  requests_post E (2 + now w) (refresh_request E r) = Ok resp ->
  json resp = Ok (JDict tokens_A2) ->
  let run := refresh_gmail_token E email w in
  exists r2,
    run.1 = Ok (JStr (py "A2")) /\
    eq_user_email email (gmail_tokens run.2) = [r; r2] /\
    access_token r2 = JStr (py "A2") /\
    refresh_token r2 = JStr (py "R1") /\
    expires_at r2 = trunc (time_time E (3 + now w)) + 3600 /\
    created_at r2 = store_now E (4 + now w) /\
    (created_at r < created_at r2 ->
     latest_record email (gmail_tokens run.2) = Some r2).
Proof.
  intros Hs Hr He Hp Hj run.
  assert (latest_record email (gmail_tokens w) = Some r) as Hl
    by (unfold latest_record; by rewrite Hs).
  assert (inject_Z (expires_at r) <= time_time E (1 + now w))%Q as Ht
    by (rewrite He; lra).
  pose proof (latest_record_maximal _ _ _ Hl) as (_ & Hu & _).
  subst run.
  erewrite refresh_gmail_token_unfold, Hl, refresh_from_record_success;
    [|rewrite ?now_emit; eauto; try (vm_compute; reflexivity)..].
  eexists. split; [reflexivity|]. cbn -[py].
  assert (eq_user_email email
            (gmail_tokens w ++
             [refreshed_row E email r (JStr (py "A2")) 3600
                (emit (EvSelectTokens email) w)]) =
          [r; refreshed_row E email r (JStr (py "A2")) 3600
                (emit (EvSelectTokens email) w)]) as Hnew.
  { unfold eq_user_email in *. rewrite filter_app, Hs.
    rewrite filter_cons_True by done. done. }
  split; [exact Hnew|]. split; [done|]. split; [done|].
  unfold refreshed_row at 1 2. cbn -[py]. rewrite ?length_snoc.
  split; [done|]. split; [done|].
  intros Hlt. unfold latest_record. rewrite Hnew. simpl.
  unfold refreshed_row at 1; cbn -[py]. rewrite ?length_snoc.
  match goal with |- context [?a <=? ?b] => destruct (Z.leb_spec a b) end;
    [lia|done].
Qed.

Lemma refresh_scenario_R1_A2_witness :
  let E := answer tokens_A2 200 in
  let run := refresh_gmail_token E alice w0 in
  exists r2,
    run.1 = Ok (JStr (py "A2")) /\
    eq_user_email alice (gmail_tokens run.2) = [old_row; r2] /\
    access_token r2 = JStr (py "A2") /\
    refresh_token r2 = JStr (py "R1") /\
    expires_at r2 = 1002 + 3600 /\
    created_at r2 = 24 /\
    (10 < created_at r2 -> latest_record alice (gmail_tokens run.2) = Some r2).
Proof.
  intros E run.
  apply (refresh_scenario_R1_A2 E alice w0 old_row
           {| status_code := 200; json := Ok (JDict tokens_A2) |}).
  - vm_compute. reflexivity.
  - reflexivity.
  - vm_compute. reflexivity.
  - reflexivity.
  - reflexivity.
Defined.

(** C3: with [r] the latest record of the identity and [t] the clock
    reading: if [expires_at r > t], the call returns [r]'s access token,
    leaves the store as it was and performs nothing but the selection and
    the clock reading (no request, no insertion); if [expires_at r <= t],
    equality included, the refresh exchange is posted with [r]'s refresh
    token right after the clock reading, and an access token is returned
    only if that exchange answered with it. *)
Theorem expiry_boundary E email w r :
  latest_record email (gmail_tokens w) = Some r ->
  let t := time_time E (1 + now w) in
  let run := refresh_gmail_token E email w in
  ((t < inject_Z (expires_at r))%Q ->
   run.1 = Ok (access_token r) /\
   gmail_tokens run.2 = gmail_tokens w /\
   new_events w run.2 = [EvSelectTokens email; EvTime t] /\
   Forall (fun e => is_post e = false /\ is_insert e = false)
     (new_events w run.2)) /\
  ((inject_Z (expires_at r) <= t)%Q ->
   let rq := refresh_request E r in
   let reply := requests_post E (2 + now w) rq in
   (exists rest,
      new_events w run.2 =
      [EvSelectTokens email; EvTime t; EvPost rq reply] ++ rest) /\
   (forall a, run.1 = Ok a ->
      exists resp j, reply = Ok resp /\ json resp = Ok j /\
                     py_getitem j (py "access_token") = Ok a)).
Proof.
  intros Hl t run. subst t run. rewrite refresh_gmail_token_unfold, Hl.
  change (1 + now w)%nat with (S (now w)).
  change (2 + now w)%nat with (S (S (now w))).
  split.
  - intros Ht. rewrite refresh_from_record_valid by (by rewrite now_emit).
    rewrite now_emit. cbn [fst snd].
    rewrite (new_events_app _ _ _ (emit_emit_trace _ _ w)).
    repeat split; repeat constructor.
  - intros Ht rq reply.
    destruct (refresh_from_record_expired E email r
                (emit (EvSelectTokens email) w)) as (rest & Htr & Hres);
      [by rewrite now_emit|].
    rewrite now_emit in Htr, Hres. split; [|exact Hres].
    exists rest. apply new_events_app. rewrite Htr. cbn -[py].
    by rewrite <- app_assoc.
Qed.

Lemma expiry_boundary_witness :
  let E := answer tokens_A2 200 in
  (let w := store_of [row_of alice 1001 10] in
   let run := refresh_gmail_token E alice w in
   run.1 = Ok (JStr (py "A1")) /\
   gmail_tokens run.2 = [row_of alice 1001 10] /\
   new_events w run.2 = [EvSelectTokens alice; EvTime (inject_Z 1000)] /\
   Forall (fun e => is_post e = false /\ is_insert e = false)
     (new_events w run.2)) /\
  (let w := store_of [row_of alice 1000 10] in
   let run := refresh_gmail_token E alice w in
   let rq := refresh_request E (row_of alice 1000 10) in
   let reply := Ok {| status_code := 200; json := Ok (JDict tokens_A2) |} in
   (exists rest,
      new_events w run.2 =
      [EvSelectTokens alice; EvTime (inject_Z 1000); EvPost rq reply] ++ rest) /\
   (forall a, run.1 = Ok a ->
      exists resp j, reply = Ok resp /\ json resp = Ok j /\
                     py_getitem j (py "access_token") = Ok a)).
Proof.
  intros E. split.
  - apply (proj1 (expiry_boundary E alice (store_of [row_of alice 1001 10])
                    (row_of alice 1001 10) eq_refl)).
    vm_compute. reflexivity.
  - apply (proj2 (expiry_boundary E alice (store_of [row_of alice 1000 10])
                    (row_of alice 1000 10) eq_refl)).
    vm_compute. discriminate.
Defined.

(** C4 (amended): when the latest record is expired and the JSON [j] the
    provider answered can be printed ([shown j = Ok tt]: it is not a string
    with a lone surrogate) and is found not to contain [access_token]
    ([py_in ... = Ok false]: an object without that key, a list without
    that string, or a string without that text), then, whatever the status
    of the answer, [refresh_gmail_token] raises [HTTPException(400)] with
    that JSON as its detail and the store is unchanged: nothing is
    inserted. *)
Theorem refresh_rejected_leaves_store E email w r resp j :
  latest_record email (gmail_tokens w) = Some r ->
  (inject_Z (expires_at r) <= time_time E (1 + now w))%Q ->
  requests_post E (2 + now w) (refresh_request E r) = Ok resp ->
  json resp = Ok j ->
  shown j = Ok tt ->
  py_in (py "access_token") j = Ok false ->
  refresh_gmail_token E email w =
  (Raise (HTTPException 400 j),
   {| gmail_tokens := gmail_tokens w;
      email_logs := email_logs w;
      trace := trace w ++ [EvSelectTokens email;
                           EvTime (time_time E (1 + now w));
                           EvPost (refresh_request E r) (Ok resp)] |}).
Proof.
  intros Hl Ht Hp Hj Hs Hin.
  rewrite refresh_gmail_token_unfold, Hl.
  erewrite refresh_from_record_rejected by (rewrite ?now_emit; eauto).
  rewrite !now_emit. cbn -[py]. by rewrite <- app_assoc.
Qed.

Lemma refresh_rejected_leaves_store_witness :
  let E := answer tokens_error 400 in
  refresh_gmail_token E alice w0 =
  (Raise (HTTPException 400 (JDict tokens_error)),
   {| gmail_tokens := [old_row];
      email_logs := [];
      trace := [EvSelectTokens alice;
                EvTime (inject_Z 1000);
                EvPost (refresh_request E old_row)
                  (Ok {| status_code := 400;
                         json := Ok (JDict tokens_error) |})] |}).
Proof.
  intros E.
  apply (refresh_rejected_leaves_store E alice w0 old_row
           {| status_code := 400; json := Ok (JDict tokens_error) |}
           (JDict tokens_error)).
  - reflexivity.
  - vm_compute. discriminate.
  - reflexivity.
  - reflexivity.
  - reflexivity.
  - vm_compute. reflexivity.
Defined.

(** C4, as stated, fails on an error status: the status of the answer is
    never read.  An answer with status 500 whose JSON holds an access token
    is taken as a success and a row is written; an answer with status 502
    whose body is not JSON raises the decoder's exception, not
    [HTTPException].  It also fails on two kinds of answers without an
    access token: the body [null], which is no container, raises
    [TypeError], and a body that is a string with a lone surrogate raises
    [UnicodeEncodeError] where it is printed. *)
Lemma refresh_overlooks_error_status :
  (exists w',
     refresh_gmail_token (answer tokens_A2 500) alice w0 =
       (Ok (JStr (py "A2")), w') /\
     length (gmail_tokens w') = S (length (gmail_tokens w0))) /\
  (exists w',
     refresh_gmail_token (answer_not_json 502) alice w0 =
       (Raise JSONDecodeError, w')) /\
  (exists w',
     refresh_gmail_token (answer_json JNull 400) alice w0 =
       (Raise TypeError, w')) /\
  (exists w',
     refresh_gmail_token (answer_json (JStr [0xD83D]%N) 400) alice w0 =
       (Raise UnicodeEncodeError, w')).
Proof.
  split; [|split; [|split]]; eexists; [split| | |]; vm_compute; reflexivity.
Qed.

(** C5: an identity without any stored record gets [HTTPException(404)];
    the only effect is the selection: no request is posted, nothing is
    inserted. *)
Theorem no_record_not_authorized E email w :
  (forall r, r ∈ gmail_tokens w -> user_email r <> email) ->
  refresh_gmail_token E email w =
  (Raise (HTTPException 404 (JStr (py "User has no stored Gmail tokens"))),
   {| gmail_tokens := gmail_tokens w;
      email_logs := email_logs w;
      trace := trace w ++ [EvSelectTokens email] |}).
Proof.
  intros H. rewrite refresh_gmail_token_unfold.
  by rewrite (latest_record_None _ _ H).
Qed.

Lemma no_record_not_authorized_witness :
  refresh_gmail_token (answer tokens_A2 200) alice
    (store_of [row_of bob 5000 10]) =
  (Raise (HTTPException 404 (JStr (py "User has no stored Gmail tokens"))),
   {| gmail_tokens := [row_of bob 5000 10];
      email_logs := [];
      trace := [EvSelectTokens alice] |}).
Proof.
  apply (no_record_not_authorized (answer tokens_A2 200) alice
           (store_of [row_of bob 5000 10])).
  intros r Hr. apply list_elem_of_singleton in Hr. subst r.
  vm_compute. discriminate.
Defined.

(** C6: if the store holds a record of the identity, there is one, [r], of
    maximal [created_at] among the records of that identity, from which the
    whole call proceeds: the rest of [refresh_gmail_token] is run on [r]
    (its [expires_at] is what is compared with the clock, its
    [refresh_token] is what is sent), and [r]'s access token is what is
    returned while [r] is valid. *)
Theorem latest_record_has_maximal_created_at E email w r0 :
  r0 ∈ gmail_tokens w ->
  user_email r0 = email ->
  exists r,
    r ∈ gmail_tokens w /\
    user_email r = email /\
    (forall x, x ∈ gmail_tokens w -> user_email x = email ->
               created_at x <= created_at r) /\
    refresh_gmail_token E email w =
      refresh_from_record E email r (emit (EvSelectTokens email) w) /\
    ((time_time E (1 + now w) < inject_Z (expires_at r))%Q ->
     (refresh_gmail_token E email w).1 = Ok (access_token r)).
Proof.
  intros Hin Hu.
  destruct (latest_record_exists email (gmail_tokens w) r0 Hin Hu) as [r Hl].
  destruct (latest_record_maximal _ _ _ Hl) as (Hr & Hru & Hmax).
  exists r. repeat split; [done..| |].
  - by rewrite refresh_gmail_token_unfold, Hl.
  - intros Ht. rewrite refresh_gmail_token_unfold, Hl.
    by rewrite refresh_from_record_valid by (by rewrite now_emit).
Qed.

Lemma latest_record_has_maximal_created_at_witness :
  let E := answer tokens_A2 200 in
  let w := store_of [row_of alice 5000 30; row_of bob 6000 40;
                     row_of alice 999 10] in
  exists r,
    r ∈ gmail_tokens w /\
    user_email r = alice /\
    (forall x, x ∈ gmail_tokens w -> user_email x = alice ->
               created_at x <= created_at r) /\
    refresh_gmail_token E alice w =
      refresh_from_record E alice r (emit (EvSelectTokens alice) w) /\
    ((time_time E (1 + now w) < inject_Z (expires_at r))%Q ->
     (refresh_gmail_token E alice w).1 = Ok (access_token r)).
Proof.
  intros E w.
  apply (latest_record_has_maximal_created_at E alice w (row_of alice 999 10)).
  - unfold w, store_of; simpl. do 2 right. left.
  - reflexivity.
Defined.

(** ** Encodings: what a receiver reads back *)

Section Encodings.

#[local] Open Scope N_scope.

Lemma all_below_spec n P : all_below n P = true -> forall i, i < n -> P i = true.
Proof.
  unfold all_below. induction n as [|n IH] using N.peano_ind; [lia|].
  rewrite N.recursion_succ; [|done|by intros ? ? -> ? ? ->].
  intros [Hn Hp]%andb_prop i Hi.
  destruct (N.eq_dec i n) as [->|]; [done|]. apply IH; [done|lia].
Qed.

Lemma is_some_N_spec o c : is_some_N o c = true -> o = Some c.
Proof. destruct o; simpl; [|done]. by intros ->%N.eqb_eq. Qed.

(** *** Base64 *)

Lemma symbol_check_all : all_below 64 symbol_check = true.
Proof. vm_compute. reflexivity. Qed.

Lemma symbol_facts i :
  i < 64 -> b64index (b64char i) = Some i /\ (b64char i =? pad) = false.
Proof.
  intros H. pose proof (all_below_spec _ _ symbol_check_all i H) as F.
  unfold symbol_check in F. apply andb_prop in F as [F1 F2].
  split; [by apply is_some_N_spec|by apply negb_true_iff].
Qed.

Lemma b64index_b64char i : i < 64 -> b64index (b64char i) = Some i.
Proof. intros H. by apply symbol_facts. Qed.

Lemma b64char_not_pad i : i < 64 -> (b64char i =? pad) = false.
Proof. intros H. by apply symbol_facts. Qed.

Lemma b64char_ascii i : b64char i < 128.
Proof.
  unfold b64char. repeat case_match; rewrite ?N.ltb_lt, ?N.eqb_eq in *; lia.
Qed.

Lemma head_check_all :
  all_below 256 (fun a => all_below 256 (head_check a)) = true.
Proof. vm_compute. reflexivity. Qed.

Lemma tail_check_all :
  all_below 256 (fun b => all_below 256 (tail_check b)) = true.
Proof. vm_compute. reflexivity. Qed.

Lemma head_facts a b :
  a < 256 -> b < 256 ->
  let s0 := N.shiftr a 2 in
  let s1 := N.lor (N.shiftl (N.land a 3) 4) (N.shiftr b 4) in
  let s1' := N.shiftl (N.land a 3) 4 in
  s0 < 64 /\ s1 < 64 /\ s1' < 64
  /\ N.lor (N.shiftl s0 2) (N.shiftr s1 4) = a
  /\ N.lor (N.shiftl s0 2) (N.shiftr s1' 4) = a
  /\ N.land s1 15 = N.shiftr b 4.
Proof.
  intros Ha Hb.
  assert (head_check a b = true) as F.
  { apply (all_below_spec 256 (head_check a)); [|done].
    by apply (all_below_spec 256 (fun a => all_below 256 (head_check a))
                head_check_all). }
  unfold head_check in F. cbn zeta in *.
  rewrite !andb_true_iff, !N.ltb_lt, !N.eqb_eq in F. tauto.
Qed.

Lemma tail_facts b c :
  b < 256 -> c < 256 ->
  let s2 := N.lor (N.shiftl (N.land b 15) 2) (N.shiftr c 6) in
  let s2' := N.shiftl (N.land b 15) 2 in
  let s3 := N.land c 63 in
  s2 < 64 /\ s2' < 64 /\ s3 < 64
  /\ N.lor (N.shiftl (N.shiftr b 4) 4) (N.shiftr s2 2) = b
  /\ N.lor (N.shiftl (N.shiftr b 4) 4) (N.shiftr s2' 2) = b
  /\ N.lor (N.shiftl (N.land s2 3) 6) s3 = c.
Proof.
  intros Hb Hc.
  assert (tail_check b c = true) as F.
  { apply (all_below_spec 256 (tail_check b)); [|done].
    by apply (all_below_spec 256 (fun b => all_below 256 (tail_check b))
                tail_check_all). }
  unfold tail_check in F. cbn zeta in *.
  rewrite !andb_true_iff, !N.ltb_lt, !N.eqb_eq in F. tauto.
Qed.

Lemma list_ind3 {A} (P : list A -> Prop) :
  P [] -> (forall a, P [a]) -> (forall a b, P [a; b]) ->
  (forall a b c l, P l -> P (a :: b :: c :: l)) ->
  forall l, P l.
Proof.
  intros H0 H1 H2 H3 l.
  assert (forall n (l : list A), (length l <= n)%nat -> P l) as H;
    [|by apply (H (length l))].
  clear l. induction n as [|n IH]; intros [|a [|b [|c l]]] Hl; simpl in Hl;
    try done; try lia.
  apply H3, IH. lia.
Qed.

Lemma urlsafe_b64encode_ascii bs : Forall (fun c => c < 128) (urlsafe_b64encode bs).
Proof.
  induction bs as [|a|a b|a b c l IH] using list_ind3; simpl;
    repeat constructor; auto using b64char_ascii; unfold pad; lia.
Qed.

Lemma urlsafe_b64decode_encode bs :
  Forall (fun b => b < 256) bs ->
  urlsafe_b64decode (urlsafe_b64encode bs) = Some bs.
Proof.
  induction bs as [|a|a b|a b c l IH] using list_ind3; intros Hb.
  - done.
  - apply Forall_cons in Hb as [Ha _].
    destruct (head_facts a 0 Ha) as (F0 & _ & F1 & _ & F2 & _); [lia|].
    cbn [urlsafe_b64encode urlsafe_b64decode].
    rewrite !b64index_b64char by done.
    rewrite !N.eqb_refl. by rewrite F2.
  - apply Forall_cons in Hb as [Ha [Hb _]%Forall_cons].
    destruct (head_facts a b Ha Hb) as (F0 & F1 & _ & F2 & _ & F3).
    destruct (tail_facts b 0 Hb) as (_ & G0 & _ & _ & G1 & _); [lia|].
    cbn [urlsafe_b64encode urlsafe_b64decode].
    rewrite !b64index_b64char by done.
    rewrite N.eqb_refl, b64char_not_pad by done.
    by rewrite F2, F3, G1.
  - apply Forall_cons in Hb as [Ha [Hb [Hc Hl]%Forall_cons]%Forall_cons].
    destruct (head_facts a b Ha Hb) as (F0 & F1 & _ & F2 & _ & F3).
    destruct (tail_facts b c Hb Hc) as (G0 & _ & G1 & G2 & _ & G3).
    cbn [urlsafe_b64encode urlsafe_b64decode].
    rewrite !b64index_b64char by done.
    rewrite b64char_not_pad by done.
    by rewrite IH, F2, F3, G2, G3.
Qed.

(** *** UTF-8 *)

Lemma utf8_check_all : all_below 0x110000 utf8_check = true.
Proof. vm_compute. reflexivity. Qed.

Lemma utf8_encode_cp_Some c bs : utf8_encode_cp c = Some bs -> c < 0x110000.
Proof.
  unfold utf8_encode_cp. repeat case_match; try done; intros _;
    repeat match goal with
           | H : (_ <? _) = true |- _ => apply N.ltb_lt in H
           end; lia.
Qed.

Lemma utf8_decode_encode_cp c bs rest :
  utf8_encode_cp c = Some bs ->
  Forall (fun b => b < 256) bs /\
  utf8_decode (bs ++ rest) = decoded (Some c) (utf8_decode rest).
Proof.
  intros H. pose proof (utf8_encode_cp_Some _ _ H) as Hc.
  pose proof (all_below_spec _ _ utf8_check_all c Hc) as F.
  unfold utf8_check in F. rewrite H in F.
  destruct bs as [|a [|b [|c' [|d [|]]]]]; try done.
  - rewrite !andb_true_iff, !N.ltb_lt in F. destruct F as [Ha [= ->]%is_some_N_spec].
    split; [repeat constructor; lia|].
    cbn [app utf8_decode]. by apply N.ltb_lt in Ha as ->.
  - rewrite !andb_true_iff, !negb_true_iff, !N.ltb_lt in F.
    destruct F as [[[Ha Ha'] Hb] Hcp%is_some_N_spec].
    split; [repeat constructor; lia|].
    cbn [app utf8_decode]. rewrite Ha, Hcp. by apply N.ltb_lt in Ha' as ->.
  - rewrite !andb_true_iff, !negb_true_iff, !N.ltb_lt in F.
    destruct F as [[[[Ha Ha'] Hb] Hc'] Hcp%is_some_N_spec].
    assert ((a <? 0x80) = false) as H80
      by (apply N.ltb_ge; apply N.ltb_ge in Ha; lia).
    split; [repeat constructor; lia|].
    cbn [app utf8_decode]. rewrite H80, Ha, Hcp.
    by apply N.ltb_lt in Ha' as ->.
  - rewrite !andb_true_iff, !negb_true_iff, !N.ltb_lt in F.
    destruct F as [[[[[Ha Ha'] Hb] Hc'] Hd] Hcp%is_some_N_spec].
    assert ((a <? 0x80) = false) as H80
      by (apply N.ltb_ge; apply N.ltb_ge in Ha; lia).
    assert ((a <? 0xE0) = false) as HE0
      by (apply N.ltb_ge; apply N.ltb_ge in Ha; lia).
    split; [repeat constructor; lia|].
    cbn [app utf8_decode]. by rewrite H80, HE0, Ha, Hcp.
Qed.

Lemma utf8_encode_bytes s bs :
  utf8_encode s = Ok bs -> Forall (fun b => b < 256) bs.
Proof.
  revert bs. induction s as [|c s IH]; intros bs; simpl; [by intros [= <-]|].
  destruct (utf8_encode_cp c) as [cs|] eqn:Hc; [|done].
  destruct (utf8_encode s) as [rest|]; [|done]. intros [= <-].
  apply Forall_app. split; [|by apply IH].
  by apply (utf8_decode_encode_cp c cs []).
Qed.

Lemma utf8_decode_encode s bs : utf8_encode s = Ok bs -> utf8_decode bs = Ok s.
Proof.
  revert bs. induction s as [|c s IH]; intros bs; simpl; [by intros [= <-]|].
  destruct (utf8_encode_cp c) as [cs|] eqn:Hc; [|done].
  destruct (utf8_encode s) as [rest|]; [|done]. intros [= <-].
  destruct (utf8_decode_encode_cp c cs rest Hc) as [_ ->].
  by rewrite (IH rest).
Qed.

Lemma utf8_decode_ascii bs : Forall (fun b => b < 128) bs -> utf8_decode bs = Ok bs.
Proof.
  induction 1 as [|a l Ha _ IH]; [done|].
  cbn [utf8_decode]. apply N.ltb_lt in Ha as ->. by rewrite IH.
Qed.

End Encodings.

(** The model agrees with the library on sample inputs. *)
Example urlsafe_b64encode_samples :
  urlsafe_b64encode [251; 255; 190]%N = py "-_--" /\
  urlsafe_b64encode [251; 255]%N = py "-_8=" /\
  urlsafe_b64encode [251]%N = py "-w==" /\
  utf8_encode [233; 8364; 128512]%N =
    Ok [195; 169; 226; 130; 172; 240; 159; 152; 128]%N /\
  utf8_encode [0xD800]%N = Raise UnicodeEncodeError.
Proof. repeat split; vm_compute; reflexivity. Qed.

(** ** The mail dispatch client *)

(** Once the token is there and the envelope is encoded, one request is
    posted, and the outcome is read off the answer. *)
Lemma send_gmail_message_run E email to_addr subj msg w a w1 bs :
  refresh_gmail_token E email w = (Ok a, w1) ->
  utf8_encode (raw_email to_addr subj msg) = Ok bs ->
  let rq := send_request E (urlsafe_b64encode bs) a in
  let reply := requests_post E (now w1) rq in
  send_gmail_message E email to_addr subj msg w =
  (match reply with
   | Raise e => Raise e
   | Ok resp =>
       match json resp with
       | Raise e => Raise e
       | Ok j =>
           match shown j with
           | Raise e => Raise e
           | Ok _ => if status_code resp =? 200 then Ok j
                     else Raise (HTTPException 500 j)
           end
       end
   end,
   emit (EvPost rq reply) w1).
Proof.
  intros Hr Hb rq reply.
  unfold send_gmail_message, bind, print_value, lift, post, raise.
  rewrite Hr, Hb.
  rewrite (utf8_decode_ascii _ (urlsafe_b64encode_ascii bs)).
  fold rq. fold reply. destruct reply as [resp|e]; [|done].
  destruct (json resp) as [j|e]; [|done].
  destruct (shown j); [|done].
  by destruct (status_code resp =? 200).
Qed.

(** C7: the envelope is the text ["To: "], the recipient, CR LF,
    ["Subject: "], the subject, CR LF, CR LF, the body.  Whenever
    [send_gmail_message] has its token and the envelope can be encoded,
    with UTF-8 bytes [bs], the one request it posts goes to the send URL
    with the JSON [{"raw": payload}], where [payload] is the URL-safe base64
    text of [bs]: decoding [payload] gives [bs] back, and decoding [bs]
    gives the envelope. *)
Theorem send_payload_is_base64_envelope E email to_addr subj msg w a w1 bs :
  refresh_gmail_token E email w = (Ok a, w1) ->
  let envelope := py "To: " ++ to_addr ++ [13; 10]%N
                  ++ py "Subject: " ++ subj ++ [13; 10; 13; 10]%N ++ msg in
  utf8_encode envelope = Ok bs ->
  let run := send_gmail_message E email to_addr subj msg w in
  exists payload reply,
    new_events w1 run.2 =
      [EvPost {| url := gmail_url;
                 content := Json (JDict (<[py "raw" := JStr payload]> ∅));
                 headers := [ (py "Authorization",
                               py "Bearer " ++ format_value E a);
                              (py "Content-Type", py "application/json") ] |}
         reply] /\
    payload = urlsafe_b64encode bs /\
    urlsafe_b64decode payload = Some bs /\
    utf8_decode bs = Ok envelope.
Proof.
  intros Hr envelope Hb run. subst run.
  change envelope with (raw_email to_addr subj msg) in *. clear envelope.
  rewrite (send_gmail_message_run _ _ _ _ _ _ _ _ _ Hr Hb).
  eexists _, _. split; [by apply new_events_app|]. split; [done|].
  split; [|by apply utf8_decode_encode].
  eapply urlsafe_b64decode_encode, utf8_encode_bytes, Hb.
Qed.

Lemma send_payload_is_base64_envelope_witness :
  let E := answer tokens_A2 200 in
  let w := store_of [row_of alice 5000 10] in
  let w1 := emit (EvTime (inject_Z 1000)) (emit (EvSelectTokens alice) w) in
  let run := send_gmail_message E alice (py "x@y.com") (py "Hi") (py "Body") w in
  let envelope :=
    py "To: x@y.com" ++ [13; 10]%N ++ py "Subject: Hi" ++ [13; 10; 13; 10]%N
    ++ py "Body" in
  exists payload reply,
    new_events w1 run.2 =
      [EvPost {| url := gmail_url;
                 content := Json (JDict (<[py "raw" := JStr payload]> ∅));
                 headers := [ (py "Authorization", py "Bearer A1");
                              (py "Content-Type", py "application/json") ] |}
         reply] /\
    payload = py "VG86IHhAeS5jb20NClN1YmplY3Q6IEhpDQoNCkJvZHk=" /\
    urlsafe_b64decode payload = Some envelope /\
    utf8_decode envelope = Ok envelope.
Proof.
  intros E w w1 run envelope.
  apply (send_payload_is_base64_envelope E alice (py "x@y.com") (py "Hi")
           (py "Body") w (JStr (py "A1")) w1 envelope).
  - vm_compute. reflexivity.
  - vm_compute. reflexivity.
Defined.

(** C8 (amended): for every answer to the send request whose body is a
    JSON [j] that can be printed ([shown j = Ok tt]: it is not a string with
    a lone surrogate), [send_gmail_message] raises [HTTPException(500)] with
    that JSON as its detail if and only if the status is not 200, and
    returns the JSON if and only if the status is 200. *)
Theorem send_fails_unless_status_200 E email to_addr subj msg w a w1 bs resp j :
  refresh_gmail_token E email w = (Ok a, w1) ->
  utf8_encode (raw_email to_addr subj msg) = Ok bs ->
  requests_post E (now w1) (send_request E (urlsafe_b64encode bs) a) = Ok resp ->
  json resp = Ok j ->
  shown j = Ok tt ->
  let run := send_gmail_message E email to_addr subj msg w in
  (run.1 = Raise (HTTPException 500 j) <-> status_code resp <> 200) /\
  (run.1 = Ok j <-> status_code resp = 200) /\
  gmail_tokens run.2 = gmail_tokens w1.
Proof.
  intros Hr Hb Hp Hj Hs run. subst run.
  rewrite (send_gmail_message_run _ _ _ _ _ _ _ _ _ Hr Hb), Hp, Hj, Hs.
  cbn [fst snd]. destruct (Z.eqb_spec (status_code resp) 200) as [->|Hne].
  - repeat split; intros; try done; congruence.
  - repeat split; intros; try done; congruence.
Qed.

Lemma send_fails_unless_status_200_witness :
  let E := answer tokens_A2 200 in
  let w := store_of [row_of alice 5000 10] in
  let run := send_gmail_message E alice (py "x@y.com") (py "Hi") (py "Body") w in
  (run.1 = Raise (HTTPException 500 (JDict tokens_A2)) <-> 200 <> 200) /\
  (run.1 = Ok (JDict tokens_A2) <-> 200 = 200) /\
  gmail_tokens run.2 = [row_of alice 5000 10].
Proof.
  intros E w run.
  apply (send_fails_unless_status_200 E alice (py "x@y.com") (py "Hi")
           (py "Body") w (JStr (py "A1"))
           (emit (EvTime (inject_Z 1000)) (emit (EvSelectTokens alice) w))
           (raw_email (py "x@y.com") (py "Hi") (py "Body"))
           {| status_code := 200; json := Ok (JDict tokens_A2) |}
           (JDict tokens_A2)).
  - vm_compute. reflexivity.
  - vm_compute. reflexivity.
  - reflexivity.
  - reflexivity.
  - reflexivity.
Defined.

(** C8, as stated, fails: an answer with the 2xx status 201 is not treated
    as a success; the call raises [HTTPException(500)].  And an answer with
    the status 200 whose JSON is a string with a lone surrogate is no
    success either: printing it raises [UnicodeEncodeError]. *)
Lemma send_rejects_status_201 :
  let E := answer tokens_A2 201 in
  let w := store_of [row_of alice 5000 10] in
  (200 <= 201 < 300) /\
  (send_gmail_message E alice (py "x@y.com") (py "Hi") (py "Body") w).1 =
    Raise (HTTPException 500 (JDict tokens_A2)) /\
  (send_gmail_message (answer_json (JStr [0xD83D]%N) 200) alice
     (py "x@y.com") (py "Hi") (py "Body") w).1 =
    Raise UnicodeEncodeError.
Proof. intros E w. split; [lia|]. split; vm_compute; reflexivity. Qed.

(** ** The email webhook *)

Lemma written_index_error : written (py "list index out of range") = Ok tt.
Proof. vm_compute. reflexivity. Qed.

(** The webhook when the failure of the generation, if there is one, can
    be printed: the call returns and appends exactly one row to
    [email_logs], with the fields of the request, the reply, the confidence
    0.8 and the status ["draft"]; the returned object holds the same status
    and reply.  The reply is the generated one when the generation
    succeeded, and the fixed fallback string when it failed (the call
    raised, or the completion came without a choice). *)
Lemma process_email_logs_when_printed E payload w :
  let outcome := chat_completions_create E (now w) (draft_request payload) in
  let run := process_email E payload w in
  (forall e, outcome = Raise e -> written (exn_text E e) = Ok tt) ->
  exists reply,
    reply = match generated outcome with
            | Some c => c
            | None => Some fallback_reply
            end /\
    run.1 = Ok (JDict (<[py "status" := JStr (py "draft")]>
                        (<[py "reply" := optional_str reply]> ∅))) /\
    email_logs run.2 =
      email_logs w ++
      [ {| EmailLog.inbox_id := EmailPayload.inbox_id payload;
           EmailLog.sender := EmailPayload.sender payload;
           EmailLog.subject := EmailPayload.subject payload;
           EmailLog.body := EmailPayload.body payload;
           EmailLog.ai_reply := reply;
           EmailLog.confidence := 8 # 10;
           EmailLog.status := py "draft" |} ] /\
    gmail_tokens run.2 = gmail_tokens w /\
    length (filter (fun e => is_insert e = true) (new_events w run.2)) = 1%nat.
Proof.
  intros outcome run Hpr. subst run.
  unfold process_email, bind, try_except, chat_create, print_text, lift, ret,
    insert_log.
  fold outcome. unfold new_events, generated.
  destruct outcome as [c|e]; cbn -[py written exn_text];
    [destruct (choices c) as [|ch ?]|]; cbn -[py written exn_text].
  - change (exn_text E IndexError) with (py "list index out of range").
    rewrite written_index_error. cbn -[py].
    eexists; (split; [reflexivity|]); repeat split.
    rewrite <- app_assoc, drop_app_length; reflexivity.
  - eexists; (split; [reflexivity|]); repeat split.
    rewrite <- app_assoc, drop_app_length; reflexivity.
  - rewrite (Hpr e eq_refl). cbn -[py].
    eexists; (split; [reflexivity|]); repeat split.
    rewrite <- app_assoc, drop_app_length; reflexivity.
Qed.

(** C9 (a defect of the code): the claim is that every call of the webhook
    returns and logs one row, the fallback standing in for a failed
    generation.  [process_email] prints the exception inside the [except]
    block, before the fallback is assigned (line 251).  When the generation
    raises an exception whose text cannot be written to the standard
    output, that [print] raises in its turn, outside any handler: the call
    raises [UnicodeEncodeError], and no row is logged. *)
Theorem process_email_print_failure E payload w e :
  chat_completions_create E (now w) (draft_request payload) = Raise e ->
  e <> IndexError ->
  utf8_encode (str_exn E e) = Raise UnicodeEncodeError ->
  process_email E payload w =
  (Raise UnicodeEncodeError,
   {| gmail_tokens := gmail_tokens w;
      email_logs := email_logs w;
      trace := trace w ++ [EvChat (draft_request payload) (Raise e)] |}).
Proof.
  intros Hc Hne Hu.
  unfold process_email, bind, try_except, chat_create, print_text, lift.
  rewrite Hc. cbn -[py written exn_text].
  assert (written (exn_text E e) = Raise UnicodeEncodeError) as ->; [|done].
  unfold written. destruct e; try done; cbn [exn_text]; by rewrite Hu.
Qed.

Lemma process_email_print_failure_witness :
  let payload := {| EmailPayload.inbox_id := py "inbox-1";
                    EmailPayload.sender := py "x@y.com";
                    EmailPayload.subject := py "Hi";
                    EmailPayload.body := py "Body" |} in
  process_email unprintable_failure payload (store_of []) =
  (Raise UnicodeEncodeError,
   {| gmail_tokens := [];
      email_logs := [];
      trace := [EvChat (draft_request payload) (Raise OpenAIError)] |}).
Proof.
  intros payload.
  apply (process_email_print_failure unprintable_failure payload (store_of [])
           OpenAIError).
  - reflexivity.
  - discriminate.
  - vm_compute. reflexivity.
Defined.

(** ** The OAuth callback *)

(** Closes the branch of the callback in which the field [k] is missing. *)
Ltac missing k :=
  exists k; split; [unfold callback_fields; rewrite !elem_of_cons; tauto|];
  split; [done|]; split; [done|]; intros; discriminate.

(** C10: when the provider's answer to the code exchange is a JSON object
    that has [access_token] but lacks one of [refresh_token], [token_type],
    [scope], [expires_in], [gmail_callback] raises [KeyError] for a missing
    field, never [HTTPException]; nothing is stored. *)
Theorem callback_lookup_not_total E code w resp d a :
  requests_post E (now w) (callback_request E code) = Ok resp ->
  json resp = Ok (JDict d) ->
  d !! py "access_token" = Some a ->
  (exists k, k ∈ callback_fields /\ d !! k = None) ->
  exists k,
    k ∈ callback_fields /\ d !! k = None /\
    gmail_callback E code w =
      (Raise (KeyError k), emit (EvPost (callback_request E code) (Ok resp)) w) /\
    (forall s x, (gmail_callback E code w).1 <> Raise (HTTPException s x)).
Proof.
  intros Hp Hj Ha (k & Hk & Hnone).
  unfold gmail_callback, bind, post, lift, raise. rewrite Hp.
  cbn beta iota. rewrite Hj. unfold py_in, py_getitem. rewrite Ha.
  rewrite bool_decide_true by done. cbn beta iota. cbn [negb].
  destruct (d !! py "refresh_token") eqn:H1; [|missing (py "refresh_token")].
  destruct (d !! py "token_type") eqn:H2; [|missing (py "token_type")].
  destruct (d !! py "scope") eqn:H3; [|missing (py "scope")].
  destruct (d !! py "expires_in") eqn:H4; [|missing (py "expires_in")].
  exfalso. unfold callback_fields in Hk. rewrite !elem_of_cons in Hk.
  destruct Hk as [->|[->|[->|[->|[]%elem_of_nil]]]]; congruence.
Qed.

Lemma callback_lookup_not_total_witness :
  let E := answer tokens_bare 200 in
  let w := store_of [] in
  exists k,
    k ∈ callback_fields /\ tokens_bare !! k = None /\
    gmail_callback E (py "4/0AbCd") w =
      (Raise (KeyError k),
       emit (EvPost (callback_request E (py "4/0AbCd"))
               (Ok {| status_code := 200; json := Ok (JDict tokens_bare) |})) w) /\
    (forall s x,
       (gmail_callback E (py "4/0AbCd") w).1 <> Raise (HTTPException s x)).
Proof.
  intros E w.
  apply (callback_lookup_not_total E (py "4/0AbCd") w
           {| status_code := 200; json := Ok (JDict tokens_bare) |}
           tokens_bare (JStr (py "A1"))).
  - reflexivity.
  - reflexivity.
  - vm_compute. reflexivity.
  - exists (py "refresh_token"). split; [left|]. vm_compute. reflexivity.
Defined.

(** ** Sample runs *)

(** A complete answer to the code exchange is stored under the fixed
    identity, with [expires_at] counted from the clock reading. *)
Example gmail_callback_stores :
  let d := <[py "refresh_token" := JStr (py "R1")]>
             (<[py "token_type" := JStr (py "Bearer")]>
                (<[py "scope" := JStr (py "gmail.send")]> tokens_A2)) in
  exists w',
    gmail_callback (answer d 200) (py "4/0AbCd") (store_of []) =
      (Ok (JDict (<[py "status" := JStr (py "saved")]>
                   (<[py "email" := JStr (py "prod.tkmusic@gmail.com")]> ∅))),
       w') /\
    gmail_tokens w' =
      [ {| user_email := py "prod.tkmusic@gmail.com";
           access_token := JStr (py "A2");
           refresh_token := JStr (py "R1");
           token_type := JStr (py "Bearer");
           scope := JStr (py "gmail.send");
           expires_at := 1000 + 3600;
           created_at := 22 |} ].
Proof. intros d. eexists. split; vm_compute; reflexivity. Qed.

(** An answer without [access_token] is refused with its payload. *)
Example gmail_callback_refused :
  (gmail_callback (answer tokens_error 400) (py "4/0AbCd") (store_of [])).1 =
  Raise (HTTPException 400 (JDict tokens_error)).
Proof. vm_compute. reflexivity. Qed.

(** The generation fails: the fallback is logged and returned. *)
Example process_email_fallback :
  let payload := {| EmailPayload.inbox_id := py "inbox-1";
                    EmailPayload.sender := py "x@y.com";
                    EmailPayload.subject := py "Hi";
                    EmailPayload.body := py "Body" |} in
  let run := process_email (answer tokens_A2 200) payload (store_of []) in
  run.1 = Ok (JDict (<[py "status" := JStr (py "draft")]>
                      (<[py "reply" :=
                           JStr (py "There was an error generating a reply.")]> ∅)))
  /\ map EmailLog.ai_reply (email_logs run.2) =
       [Some (py "There was an error generating a reply.")]
  /\ map EmailLog.status (email_logs run.2) = [py "draft"].
Proof. intros payload run. repeat split; vm_compute; reflexivity. Qed.

(** The generation succeeds: its text is logged and returned. *)
Example process_email_drafts :
  let payload := {| EmailPayload.inbox_id := py "inbox-1";
                    EmailPayload.sender := py "x@y.com";
                    EmailPayload.subject := py "Hi";
                    EmailPayload.body := py "Body" |} in
  let c := {| choices :=
                [ {| message := {| message_content := Some (py "Hello") |} |} ] |} in
  let run := process_email (env_of (Raise RequestException) (Ok c)) payload
               (store_of []) in
  run.1 = Ok (JDict (<[py "status" := JStr (py "draft")]>
                      (<[py "reply" := JStr (py "Hello")]> ∅)))
  /\ map EmailLog.ai_reply (email_logs run.2) = [Some (py "Hello")].
Proof. intros payload c run. repeat split; vm_compute; reflexivity. Qed.

(** * Further properties *)

Import Cases.

(** Runs a handler symbolically in a world whose trace has [k] events. *)
Ltac step Hk :=
  repeat first
    [ progress (cbn -[py]; rewrite ?length_snoc, ?Hk)
    | match goal with
      | H : ?t = _ |- context [?t] => rewrite H
      end ].

Ltac unfold_locals :=
  repeat match goal with x := _ |- _ => subst x end.

Ltac same_world :=
  unfold extend, emit; cbn -[py]; rewrite ?app_nil_r, <- ?app_assoc;
  reflexivity.

(** [print] fails in one way only: on a string with a code point that
    UTF-8 cannot encode. *)
Lemma utf8_encode_raises s e :
  utf8_encode s = Raise e -> e = UnicodeEncodeError.
Proof.
  revert e. induction s as [|c s IH]; intros e; simpl; [done|].
  destruct (utf8_encode_cp c); [|congruence].
  destruct (utf8_encode s); [done|]. intros [= <-]. by apply IH.
Qed.

Lemma shown_raises j e :
  shown j = Raise e ->
  e = UnicodeEncodeError /\
  exists s, j = JStr s /\ utf8_encode s = Raise UnicodeEncodeError.
Proof.
  destruct j as [|b|z|f|s|l|d]; try done. unfold shown, written.
  destruct (utf8_encode s) as [bs|e'] eqn:Hu; [done|]. intros [= <-].
  pose proof (utf8_encode_raises _ _ Hu) as ->. split; [done|]. by exists s.
Qed.

(** Closes a case of [refresh_from_record] that ends with the result [res]
    after the events [evs], nothing being inserted. *)
Ltac refresh_halts res evs :=
  exists res, evs, (@nil token_row);
  (split; [|split; [repeat constructor|by left]]);
  let w := fresh "w" in
  let Hk := fresh "Hk" in
  intros w Hk; unfold now in Hk; unfold_locals;
  unfold refresh_from_record, bind, time_now, post, print_value, lift, raise,
    ret, now;
  step Hk; same_world.

(** Every run of [refresh_from_record], by cases on what the environment
    answers when the trace has [k] events: its result, the events and the
    rows it adds are the same in every such world. *)
Lemma refresh_from_record_cases E email r k :
  exists res evs rows,
    (forall w, now w = k ->
       refresh_from_record E email r w = (res, extend w evs rows [])) /\
    Forall (refresh_effect E r) evs /\
    (rows = [] \/
     exists row, rows = [row] /\ res = Ok (access_token row) /\
                 user_email row = email /\
                 refresh_token row = refresh_token r /\
                 token_type row = token_type r /\
                 scope row = scope r /\
                 In (EvInsertToken row) evs).
Proof.
  set (t := time_time E k).
  destruct (int_gt_float (expires_at r) t) eqn:Hv;
    [refresh_halts (Ok (access_token r) : result jvalue) ([EvTime t])|].
  set (rq := refresh_request E r).
  destruct (requests_post E (S k) rq) as [resp|e] eqn:Hp;
    [|refresh_halts (Raise e : result jvalue) ([EvTime t; EvPost rq (Raise e)])].
  set (evs := [EvTime t; EvPost rq (Ok resp)]).
  destruct (json resp) as [j|e] eqn:Hj;
    [|refresh_halts (Raise e : result jvalue) evs].
  destruct (shown j) as [[]|e] eqn:Hs;
    [|refresh_halts (Raise e : result jvalue) evs].
  destruct (py_in (py "access_token") j) as [[]|e] eqn:Hin;
    [|refresh_halts (Raise (HTTPException 400 j) : result jvalue) evs
     |refresh_halts (Raise e : result jvalue) evs].
  destruct (py_getitem j (py "access_token")) as [a|e] eqn:Ha;
    [|refresh_halts (Raise e : result jvalue) evs].
  set (t' := time_time E (S (S k))).
  destruct (py_getitem j (py "expires_in")) as [x|e] eqn:Hx;
    [|refresh_halts (Raise e : result jvalue) (evs ++ [EvTime t'])].
  destruct (py_int E x) as [n|e] eqn:Hn;
    [|refresh_halts (Raise e : result jvalue) (evs ++ [EvTime t'])].
  set (row := {| user_email := email; access_token := a;
                 refresh_token := refresh_token r;
                 token_type := token_type r; scope := scope r;
                 expires_at := trunc t' + n;
                 created_at := store_now E (S (S (S k))) |}).
  exists (Ok a), (evs ++ [EvTime t'; EvInsertToken row]), [row].
  split; [|split; [repeat constructor|right; exists row; repeat split]].
  - intros w Hk. unfold now in Hk. unfold_locals.
    unfold refresh_from_record, bind, time_now, post, print_value, lift,
      raise, ret, insert_token, now.
    step Hk. same_world.
  - simpl. tauto.
Qed.

(** The same for [refresh_gmail_token], which first selects. *)
Lemma refresh_gmail_token_cases E email w :
  exists res evs rows,
    refresh_gmail_token E email w = (res, extend w evs rows []) /\
    (forall w', now w' = now w ->
       latest_record email (gmail_tokens w') = latest_record email (gmail_tokens w) ->
       refresh_gmail_token E email w' = (res, extend w' evs rows [])) /\
    Forall (fun e => forall rq reply, e = EvPost rq reply -> url rq = token_url) evs /\
    Forall (fun e => forall rq reply, e <> EvChat rq reply) evs /\
    (rows = [] \/
     exists r row, latest_record email (gmail_tokens w) = Some r /\
                 rows = [row] /\ res = Ok (access_token row) /\
                 user_email row = email /\
                 refresh_token row = refresh_token r /\
                 token_type row = token_type r /\
                 scope row = scope r).
Proof.
  destruct (latest_record email (gmail_tokens w)) as [r|] eqn:Hl.
  - destruct (refresh_from_record_cases E email r (S (now w)))
      as (res & evs & rows & Hrun & Hevs & Hrows).
    exists res, (EvSelectTokens email :: evs), rows.
    assert (forall w', now w' = now w ->
              latest_record email (gmail_tokens w') = Some r ->
              refresh_gmail_token E email w' =
                (res, extend w' (EvSelectTokens email :: evs) rows [])) as H.
    { intros w' Hk Hl'. rewrite refresh_gmail_token_unfold, Hl'.
      rewrite Hrun by (by rewrite now_emit, Hk). same_world. }
    split; [by apply H|]. split; [done|]. split; [|split].
    + constructor; [done|]. eapply Forall_impl; [exact Hevs|].
      intros e He rq reply ->. simpl in He. by subst rq.
    + constructor; [done|]. eapply Forall_impl; [exact Hevs|].
      intros e He rq reply ->. exact He.
    + destruct Hrows as [->|(row & -> & ? & ? & ? & ? & ? & ?)]; [by left|].
      right. by exists r, row.
  - exists (Raise (HTTPException 404 (JStr (py "User has no stored Gmail tokens")))),
      [EvSelectTokens email], [].
    assert (forall w', latest_record email (gmail_tokens w') = None ->
              refresh_gmail_token E email w' =
                (Raise (HTTPException 404
                          (JStr (py "User has no stored Gmail tokens"))),
                 extend w' [EvSelectTokens email] [] [])) as H.
    { intros w' Hl'. rewrite refresh_gmail_token_unfold, Hl'. same_world. }
    split; [by apply H|]. split; [intros; by apply H|].
    split; [|split; [|by left]]; by repeat constructor.
Qed.

(** ** Further properties of the token lifecycle manager *)

(** X1: whatever the environment answers, [refresh_gmail_token] only appends
    to [gmail_tokens]: the rows that were there stay as they were, at most
    one row is added, it belongs to the identity asked for, and no row is
    added by a call that raises.  [email_logs] is untouched. *)
Theorem refresh_appends_at_most_one_row E email w :
  let run := refresh_gmail_token E email w in
  exists rows,
    gmail_tokens run.2 = gmail_tokens w ++ rows /\
    email_logs run.2 = email_logs w /\
    (length rows <= 1)%nat /\
    Forall (fun row => user_email row = email) rows /\
    (forall e, run.1 = Raise e -> rows = []).
Proof.
  intros run. subst run.
  destruct (refresh_gmail_token_cases E email w)
    as (res & evs & rows & -> & _ & _ & _ & Hrows).
  exists rows. cbn [fst snd extend gmail_tokens email_logs].
  rewrite app_nil_r. split; [done|]. split; [done|].
  destruct Hrows as [->|(r & row & _ & -> & -> & Hu & _)].
  - repeat split; [simpl; lia|constructor].
  - repeat split; [simpl; lia|by repeat constructor|discriminate].
Qed.

(** X2: the records of other identities have no influence: in two worlds
    that hold the same records of the identity asked for, at the same point
    of the environment, [refresh_gmail_token] gives the same result and adds
    the same events and rows. *)
Theorem refresh_ignores_other_identities E email w1 w2 :
  eq_user_email email (gmail_tokens w1) = eq_user_email email (gmail_tokens w2) ->
  now w1 = now w2 ->
  exists res evs rows,
    refresh_gmail_token E email w1 = (res, extend w1 evs rows []) /\
    refresh_gmail_token E email w2 = (res, extend w2 evs rows []).
Proof.
  intros Hs Hk.
  destruct (refresh_gmail_token_cases E email w1)
    as (res & evs & rows & H1 & H2 & _).
  exists res, evs, rows. split; [done|]. apply H2; [done|].
  unfold latest_record. by rewrite Hs.
Qed.

Lemma refresh_ignores_other_identities_witness :
  let E := answer tokens_A2 200 in
  let w1 := store_of [old_row] in
  let w2 := store_of [row_of bob 5000 30; old_row; row_of bob 10 40] in
  exists res evs rows,
    refresh_gmail_token E alice w1 = (res, extend w1 evs rows []) /\
    refresh_gmail_token E alice w2 = (res, extend w2 evs rows []).
Proof.
  intros E w1 w2.
  apply (refresh_ignores_other_identities E alice w1 w2).
  - vm_compute. reflexivity.
  - reflexivity.
Defined.

(** X3: an answer to the refresh exchange that has an [access_token] but no
    [expires_in] makes [refresh_gmail_token] raise [KeyError], after the
    exchange and a second look at the clock: the token received is neither
    stored nor returned. *)
Theorem refresh_without_expires_in E email w r resp d a :
  latest_record email (gmail_tokens w) = Some r ->
  (inject_Z (expires_at r) <= time_time E (1 + now w))%Q ->
  requests_post E (2 + now w) (refresh_request E r) = Ok resp ->
  json resp = Ok (JDict d) ->
  d !! py "access_token" = Some a ->
  d !! py "expires_in" = None ->
  refresh_gmail_token E email w =
  (Raise (KeyError (py "expires_in")),
   extend w [EvSelectTokens email;
             EvTime (time_time E (1 + now w));
             EvPost (refresh_request E r) (Ok resp);
             EvTime (time_time E (3 + now w))] [] []).
Proof.
  intros Hl Ht%int_gt_float_false Hp Hj Ha Hx. cbn [Nat.add] in *.
  rewrite refresh_gmail_token_unfold, Hl.
  unfold refresh_from_record, bind, time_now, post, print_value, lift, raise,
    ret.
  rewrite !now_emit. cbn beta iota. rewrite Ht. cbn beta iota.
  rewrite !now_emit, Hp. cbn beta iota. rewrite Hj. unfold py_in, py_getitem.
  rewrite Ha, Hx, bool_decide_true by done. cbn -[py].
  rewrite !length_snoc. same_world.
Qed.

Lemma refresh_without_expires_in_witness :
  let E := answer tokens_bare 200 in
  refresh_gmail_token E alice w0 =
  (Raise (KeyError (py "expires_in")),
   extend w0 [EvSelectTokens alice;
              EvTime (inject_Z 1000);
              EvPost (refresh_request E old_row)
                (Ok {| status_code := 200; json := Ok (JDict tokens_bare) |});
              EvTime (inject_Z 1002)] [] []).
Proof.
  intros E.
  apply (refresh_without_expires_in E alice w0 old_row
           {| status_code := 200; json := Ok (JDict tokens_bare) |}
           tokens_bare (JStr (py "A1"))).
  - reflexivity.
  - vm_compute. discriminate.
  - reflexivity.
  - reflexivity.
  - vm_compute. reflexivity.
  - vm_compute. reflexivity.
Defined.

(** X4: when the JSON the provider answers is not an object (a list, a
    string, a number, [null]), [refresh_gmail_token] never returns a token
    and never writes: it raises [HTTPException(400)] with that JSON, or
    [TypeError], or, when the answer is a string that the standard output
    cannot encode, the [UnicodeEncodeError] of the [print] of line 156. *)
Theorem refresh_answer_not_an_object E email w r resp j :
  latest_record email (gmail_tokens w) = Some r ->
  (inject_Z (expires_at r) <= time_time E (1 + now w))%Q ->
  requests_post E (2 + now w) (refresh_request E r) = Ok resp ->
  json resp = Ok j ->
  (forall d, j <> JDict d) ->
  let run := refresh_gmail_token E email w in
  (run.1 = Raise (HTTPException 400 j) \/
   run.1 = Raise TypeError \/
   (run.1 = Raise UnicodeEncodeError /\
    exists s, j = JStr s /\ utf8_encode s = Raise UnicodeEncodeError)) /\
  gmail_tokens run.2 = gmail_tokens w.
Proof.
  intros Hl Ht%int_gt_float_false Hp Hj Hd run. subst run.
  cbn [Nat.add] in *. rewrite refresh_gmail_token_unfold, Hl.
  unfold refresh_from_record, bind, time_now, post, print_value, lift, raise,
    ret.
  rewrite !now_emit. cbn beta iota. rewrite Ht. cbn beta iota.
  rewrite !now_emit, Hp. cbn beta iota. rewrite Hj. cbn beta iota.
  destruct (shown j) as [[]|e] eqn:Hs; cbn beta iota.
  - destruct j as [|b|z|f|s|l|d]; [..|by destruct (Hd d)]; cbn -[py];
      try (split; [right; by left|done]).
    + destruct (substring _ s); cbn -[py]; (split; [|done]);
        [right; by left|by left].
    + destruct (existsb _ l); cbn -[py]; (split; [|done]);
        [right; by left|by left].
  - apply shown_raises in Hs as (-> & Hs). cbn -[py].
    split; [|done]. right; right. by split.
Qed.

Lemma refresh_answer_not_an_object_witness :
  let j := JList [JStr (py "access_token")] in
  let E := answer_json j 200 in
  let run := refresh_gmail_token E alice w0 in
  (run.1 = Raise (HTTPException 400 j) \/
   run.1 = Raise TypeError \/
   (run.1 = Raise UnicodeEncodeError /\
    exists s, j = JStr s /\ utf8_encode s = Raise UnicodeEncodeError)) /\
  gmail_tokens run.2 = gmail_tokens w0.
Proof.
  intros j E run.
  apply (refresh_answer_not_an_object E alice w0 old_row
           {| status_code := 200; json := Ok j |}).
  - reflexivity.
  - vm_compute. discriminate.
  - reflexivity.
  - reflexivity.
  - discriminate.
Defined.

Lemma order_head_newest l x :
  (forall y, y ∈ l -> created_at y < created_at x) ->
  head (order_created_at_desc (l ++ [x])) = Some x.
Proof.
  induction l as [|a l IH]; intros H; [done|]. simpl.
  rewrite head_insert_desc, IH by (intros y Hy; apply H; by right).
  assert (created_at a < created_at x) as Ha by (apply H; left).
  by destruct (Z.leb_spec (created_at x) (created_at a)); [lia|].
Qed.

Lemma latest_record_newest email rows row :
  user_email row = email ->
  (forall y, y ∈ rows -> user_email y = email -> created_at y < created_at row) ->
  latest_record email (rows ++ [row]) = Some row.
Proof.
  intros Hu H. unfold latest_record, eq_user_email.
  rewrite filter_app, filter_cons_True, filter_nil by done.
  apply order_head_newest. intros y [Hy ?]%list_elem_of_filter. by apply H.
Qed.

(** X5: a refresh serves the next call.  After a successful refresh whose
    row the store stamps later than the identity's other rows, a second
    call made before the new [expires_at] returns the new access token from
    the store: it selects, reads the clock, and neither posts nor inserts. *)
Theorem refresh_then_refresh E email w r resp d a x n :
  latest_record email (gmail_tokens w) = Some r ->
  (inject_Z (expires_at r) <= time_time E (1 + now w))%Q ->
  requests_post E (2 + now w) (refresh_request E r) = Ok resp ->
  json resp = Ok (JDict d) ->
  d !! py "access_token" = Some a ->
  d !! py "expires_in" = Some x ->
  py_int E x = Ok n ->
  (forall y, y ∈ gmail_tokens w -> user_email y = email ->
             created_at y < store_now E (4 + now w)) ->
  (time_time E (6 + now w) <
   inject_Z (trunc (time_time E (3 + now w)) + n))%Q ->
  let w' := (refresh_gmail_token E email w).2 in
  refresh_gmail_token E email w' =
  (Ok a,
   extend w' [EvSelectTokens email; EvTime (time_time E (6 + now w))] [] []).
Proof.
  intros Hl Ht Hp Hj Ha Hx Hn Hnew Hvalid w'. subst w'. cbn [Nat.add] in *.
  rewrite (refresh_gmail_token_unfold E email w), Hl.
  erewrite refresh_from_record_success by (rewrite ?now_emit; eauto).
  cbn [snd].
  set (row := refreshed_row E email r a n (emit (EvSelectTokens email) w)).
  match goal with |- refresh_gmail_token E email ?w = _ => set (w1 := w) end.
  assert (now w1 = S (S (S (S (S (now w)))))) as Hnow
    by (unfold now, w1, emit; cbn [trace]; rewrite !length_app; simpl; lia).
  assert (latest_record email (gmail_tokens w1) = Some row) as Hl1.
  { apply latest_record_newest; [done|].
    unfold row, refreshed_row. cbn [created_at]. by rewrite now_emit. }
  assert (time_time E (S (now w1)) < inject_Z (expires_at row))%Q as Hv.
  { rewrite Hnow. unfold row, refreshed_row. cbn [expires_at].
    by rewrite now_emit. }
  clearbody w1. rewrite refresh_gmail_token_unfold, Hl1.
  rewrite refresh_from_record_valid by (by rewrite now_emit).
  rewrite now_emit, Hnow. same_world.
Qed.

Lemma refresh_then_refresh_witness :
  let E := answer tokens_A2 200 in
  let w' := (refresh_gmail_token E alice w0).2 in
  refresh_gmail_token E alice w' =
  (Ok (JStr (py "A2")),
   extend w' [EvSelectTokens alice; EvTime (inject_Z 1005)] [] []).
Proof.
  intros E w'.
  apply (refresh_then_refresh E alice w0 old_row
           {| status_code := 200; json := Ok (JDict tokens_A2) |}
           tokens_A2 (JStr (py "A2")) (JInt 3600) 3600).
  - reflexivity.
  - vm_compute. discriminate.
  - reflexivity.
  - reflexivity.
  - vm_compute. reflexivity.
  - vm_compute. reflexivity.
  - reflexivity.
  - intros y Hy%list_elem_of_singleton _. subst y. vm_compute. reflexivity.
  - vm_compute. reflexivity.
Defined.

(** X6: the exchange is tried once.  When [requests.post] raises, or the
    body of the answer is not JSON, that exception is what the caller of
    [refresh_gmail_token] gets; one request was posted, nothing was
    written. *)
Theorem refresh_exchange_failure_propagates E email w r e :
  latest_record email (gmail_tokens w) = Some r ->
  (inject_Z (expires_at r) <= time_time E (1 + now w))%Q ->
  let reply := requests_post E (2 + now w) (refresh_request E r) in
  (reply = Raise e \/ exists resp, reply = Ok resp /\ json resp = Raise e) ->
  refresh_gmail_token E email w =
  (Raise e,
   extend w [EvSelectTokens email;
             EvTime (time_time E (1 + now w));
             EvPost (refresh_request E r) reply] [] []).
Proof.
  intros Hl Ht%int_gt_float_false reply Hr. subst reply. cbn [Nat.add] in *.
  rewrite refresh_gmail_token_unfold, Hl.
  unfold refresh_from_record, bind, time_now, post, lift.
  rewrite !now_emit. cbn beta iota. rewrite Ht. cbn beta iota.
  rewrite !now_emit.
  destruct Hr as [Hr|(resp & Hr & Hj)]; rewrite Hr; cbn beta iota;
    [|rewrite Hj]; same_world.
Qed.

Lemma refresh_exchange_failure_propagates_witness :
  let E := env_of (Raise RequestException) (Raise OpenAIError) in
  refresh_gmail_token E alice w0 =
  (Raise RequestException,
   extend w0 [EvSelectTokens alice;
              EvTime (inject_Z 1000);
              EvPost (refresh_request E old_row) (Raise RequestException)]
     [] []).
Proof.
  intros E.
  apply (refresh_exchange_failure_propagates E alice w0 old_row
           RequestException).
  - reflexivity.
  - vm_compute. discriminate.
  - by left.
Defined.

(** ** Further properties of the OAuth callback *)

(** Closes a case of [gmail_callback] that ends with the exception [e]
    after the events [evs]. *)
Ltac callback_halts e evs :=
  exists (Raise e : result jvalue), evs, (@nil token_row);
  (split; [|by left; split; [|exists e]]);
  let w := fresh "w" in
  let Hk := fresh "Hk" in
  intros w Hk; unfold now in Hk; unfold_locals;
  unfold gmail_callback, bind, time_now, post, print_value, lift, raise, ret,
    now;
  step Hk; same_world.

(** Every run of [gmail_callback], by cases on what the environment answers
    when the trace has [k] events. *)
Lemma gmail_callback_cases E code k :
  exists res evs rows,
    (forall w, now w = k ->
       gmail_callback E code w = (res, extend w evs rows [])) /\
    ((rows = [] /\ exists e, res = Raise e) \/
     exists row, rows = [row] /\ res = Ok callback_saved /\
                 user_email row = callback_user_email).
Proof.
  set (rq := callback_request E code).
  destruct (requests_post E k rq) as [resp|e] eqn:Hp;
    [|callback_halts e ([EvPost rq (Raise e)])].
  set (evs := [EvPost rq (Ok resp)]).
  destruct (json resp) as [j|e] eqn:Hj; [|callback_halts e evs].
  destruct (shown j) as [[]|e] eqn:Hpr; [|callback_halts e evs].
  destruct (py_in (py "access_token") j) as [[]|e] eqn:Hin;
    [|callback_halts (HTTPException 400 j) evs|callback_halts e evs].
  destruct (py_getitem j (py "access_token")) as [a|e] eqn:Ha;
    [|callback_halts e evs].
  destruct (py_getitem j (py "refresh_token")) as [rt|e] eqn:Hr;
    [|callback_halts e evs].
  destruct (py_getitem j (py "token_type")) as [tt|e] eqn:Htt;
    [|callback_halts e evs].
  destruct (py_getitem j (py "scope")) as [sc|e] eqn:Hs;
    [|callback_halts e evs].
  destruct (py_getitem j (py "expires_in")) as [x|e] eqn:Hx;
    [|callback_halts e evs].
  set (t := time_time E (S k)).
  destruct (py_int E x) as [n|e] eqn:Hn;
    [|callback_halts e (evs ++ [EvTime t])].
  set (row := {| user_email := callback_user_email; access_token := a;
                 refresh_token := rt; token_type := tt; scope := sc;
                 expires_at := trunc t + n;
                 created_at := store_now E (S (S k)) |}).
  exists (Ok callback_saved), (evs ++ [EvTime t; EvInsertToken row]), [row].
  split; [|right; by exists row].
  intros w Hk. unfold now in Hk. unfold_locals.
  unfold gmail_callback, bind, time_now, post, print_value, lift, raise, ret,
    insert_token, now, callback_saved.
  step Hk. same_world.
Qed.

(** X7: whatever the authorization code and whatever the provider answers,
    [gmail_callback] only appends to [gmail_tokens]: at most one row, always
    under the one fixed identity; it adds the row exactly when it returns,
    and what it returns is then [{"status": "saved", "email": <that
    identity>}].  A call that raises stores nothing. *)
Theorem callback_stores_under_fixed_identity E code w :
  let run := gmail_callback E code w in
  exists rows,
    gmail_tokens run.2 = gmail_tokens w ++ rows /\
    email_logs run.2 = email_logs w /\
    Forall (fun row => user_email row = py "prod.tkmusic@gmail.com") rows /\
    (forall e, run.1 = Raise e -> rows = []) /\
    (forall v, run.1 = Ok v -> length rows = 1%nat /\ v = callback_saved).
Proof.
  intros run. subst run.
  destruct (gmail_callback_cases E code (now w))
    as (res & evs & rows & Hrun & Hrows).
  rewrite Hrun by done. exists rows.
  cbn [fst snd extend gmail_tokens email_logs]. rewrite app_nil_r.
  split; [done|]. split; [done|].
  destruct Hrows as [[-> [e ->]]|(row & -> & -> & Hu)].
  - split; [constructor|]. split; [done|discriminate].
  - split; [by repeat constructor|]. split; [discriminate|].
    by intros v [= <-].
Qed.

(** The run of the callback on a complete answer. *)
Lemma gmail_callback_success E code w resp d a rt tt sc x n :
  requests_post E (now w) (callback_request E code) = Ok resp ->
  json resp = Ok (JDict d) ->
  d !! py "access_token" = Some a ->
  d !! py "refresh_token" = Some rt ->
  d !! py "token_type" = Some tt ->
  d !! py "scope" = Some sc ->
  d !! py "expires_in" = Some x ->
  py_int E x = Ok n ->
  let t := time_time E (S (now w)) in
  let row := {| user_email := callback_user_email;
                access_token := a;
                refresh_token := rt;
                token_type := tt;
                scope := sc;
                expires_at := trunc t + n;
                created_at := store_now E (S (S (now w))) |} in
  gmail_callback E code w =
  (Ok callback_saved,
   extend w [EvPost (callback_request E code) (Ok resp); EvTime t;
             EvInsertToken row] [row] []).
Proof.
  intros Hp Hj Ha Hr Htt Hs Hx Hn t row. subst t row.
  unfold gmail_callback, bind, time_now, post, lift, raise, ret,
    insert_token, callback_saved.
  rewrite Hp. cbn beta iota. rewrite Hj. unfold py_in, py_getitem.
  rewrite Ha, Hr, Htt, Hs, Hx, bool_decide_true by done. cbn -[py].
  rewrite Hn. cbn -[py]. rewrite !length_snoc. same_world.
Qed.



(** X9: an answer to the code exchange whose JSON can be printed and does
    not contain [access_token] (an object without that key, a list without
    that string, a string without that text and without a code point the
    standard output cannot encode) is refused with [HTTPException(400)]
    carrying that JSON; one request was posted, the clock was not read,
    nothing was stored. *)
Theorem callback_refuses_answer_without_token E code w resp j :
  requests_post E (now w) (callback_request E code) = Ok resp ->
  json resp = Ok j ->
  shown j = Ok tt ->
  py_in (py "access_token") j = Ok false ->
  gmail_callback E code w =
  (Raise (HTTPException 400 j),
   extend w [EvPost (callback_request E code) (Ok resp)] [] []).
Proof.
  intros Hp Hj Hs Hin.
  unfold gmail_callback, bind, post, print_value, lift, raise.
  rewrite Hp. cbn beta iota. rewrite Hj. cbn beta iota. rewrite Hs.
  cbn beta iota. rewrite Hin. same_world.
Qed.

Lemma callback_refuses_answer_without_token_witness :
  let E := answer tokens_error 400 in
  let w := store_of [old_row] in
  gmail_callback E (py "expired-code") w =
  (Raise (HTTPException 400 (JDict tokens_error)),
   extend w [EvPost (callback_request E (py "expired-code"))
               (Ok {| status_code := 400; json := Ok (JDict tokens_error) |})]
     [] []).
Proof.
  intros E w.
  apply (callback_refuses_answer_without_token E (py "expired-code") w
           {| status_code := 400; json := Ok (JDict tokens_error) |}
           (JDict tokens_error)).
  - reflexivity.
  - reflexivity.
  - reflexivity.
  - vm_compute. reflexivity.
Defined.

(** X10: the callback serves the next send.  After a callback that stored
    its row, stamped later than the fixed identity's other rows, a call of
    [refresh_gmail_token] for that identity made before [expires_at]
    returns the access token of the answer, without any request. *)
Theorem callback_then_refresh E code w resp d a rt tt sc x n :
  requests_post E (now w) (callback_request E code) = Ok resp ->
  json resp = Ok (JDict d) ->
  d !! py "access_token" = Some a ->
  d !! py "refresh_token" = Some rt ->
  d !! py "token_type" = Some tt ->
  d !! py "scope" = Some sc ->
  d !! py "expires_in" = Some x ->
  py_int E x = Ok n ->
  (forall y, y ∈ gmail_tokens w -> user_email y = callback_user_email ->
             created_at y < store_now E (2 + now w)) ->
  (time_time E (4 + now w) <
   inject_Z (trunc (time_time E (1 + now w)) + n))%Q ->
  let w' := (gmail_callback E code w).2 in
  refresh_gmail_token E callback_user_email w' =
  (Ok a,
   extend w' [EvSelectTokens callback_user_email;
              EvTime (time_time E (4 + now w))] [] []).
Proof.
  intros Hp Hj Ha Hr Htt Hs Hx Hn Hnew Hvalid w'. subst w'.
  cbn [Nat.add] in *.
  rewrite (gmail_callback_success E code w resp d a rt tt sc x n) by done.
  cbn [snd Nat.add].
  match goal with
  | |- refresh_gmail_token E _ (extend w _ [?r] _) = _ => set (row := r)
  end.
  match goal with |- refresh_gmail_token E _ ?w = _ => set (w1 := w) end.
  assert (now w1 = S (S (S (now w)))) as Hnow
    by (unfold now, w1, extend; cbn [trace]; rewrite !length_app; simpl; lia).
  assert (latest_record callback_user_email (gmail_tokens w1) = Some row)
    as Hl1 by (by apply latest_record_newest).
  assert (time_time E (S (now w1)) < inject_Z (expires_at row))%Q as Hv
    by (by rewrite Hnow).
  clearbody w1. rewrite refresh_gmail_token_unfold, Hl1.
  rewrite refresh_from_record_valid by (by rewrite now_emit).
  rewrite now_emit, Hnow. same_world.
Qed.

Lemma callback_then_refresh_witness :
  let E := answer tokens_full 200 in
  let w' := (gmail_callback E (py "4/0AbCd") (store_of [])).2 in
  refresh_gmail_token E callback_user_email w' =
  (Ok (JStr (py "A2")),
   extend w' [EvSelectTokens callback_user_email; EvTime (inject_Z 1003)]
     [] []).
Proof.
  intros E w'.
  apply (callback_then_refresh E (py "4/0AbCd") (store_of []) full_response
           tokens_full (JStr (py "A2")) (JStr (py "R1"))
           (JStr (py "Bearer")) (JStr (py "gmail.send")) (JInt 3600) 3600);
    try reflexivity; try (vm_compute; reflexivity).
  intros y Hy. inversion Hy.
Defined.

(** X11: the callback gives credentials to no other identity: for every
    identity but the fixed one, the latest record is after the callback what
    it was before, whatever the code and the provider's answer. *)
Theorem callback_leaves_other_identities E code w email :
  email <> callback_user_email ->
  latest_record email (gmail_tokens (gmail_callback E code w).2) =
  latest_record email (gmail_tokens w).
Proof.
  intros Hne.
  destruct (gmail_callback_cases E code (now w))
    as (res & evs & rows & Hrun & Hrows).
  rewrite Hrun by done. cbn [snd extend gmail_tokens].
  destruct Hrows as [[-> _]|(row & -> & _ & Hu)]; [by rewrite app_nil_r|].
  unfold latest_record, eq_user_email.
  rewrite filter_app, filter_cons_False, filter_nil, app_nil_r; [done|].
  rewrite Hu. congruence.
Qed.

Lemma callback_leaves_other_identities_witness :
  let E := answer tokens_full 200 in
  latest_record alice
    (gmail_tokens (gmail_callback E (py "4/0AbCd") (store_of [old_row])).2) =
  latest_record alice [old_row].
Proof.
  intros E.
  apply (callback_leaves_other_identities E (py "4/0AbCd")
           (store_of [old_row]) alice).
  vm_compute. discriminate.
Defined.

(** ** Further properties of the mail dispatch client *)

Lemma utf8_encode_cp_surrogate c : surrogate c -> utf8_encode_cp c = None.
Proof.
  unfold surrogate, utf8_encode_cp. intros [Hl Hu].
  repeat (case_match; try done);
    repeat match goal with
           | H : (_ <? _)%N = true |- _ => apply N.ltb_lt in H
           | H : (_ <? _)%N = false |- _ => apply N.ltb_ge in H
           | H : (_ && _) = false |- _ => apply andb_false_iff in H as [H|H]
           | H : (_ <=? _)%N = false |- _ => apply N.leb_gt in H
           end; lia.
Qed.

Lemma utf8_encode_surrogate s c :
  c ∈ s -> surrogate c -> utf8_encode s = Raise UnicodeEncodeError.
Proof.
  intros Hin Hc. induction s as [|b s IH]; [inversion Hin|]. simpl.
  apply elem_of_cons in Hin as [<-|Hin].
  - by rewrite utf8_encode_cp_surrogate.
  - rewrite IH by done. by destruct (utf8_encode_cp b).
Qed.

Lemma token_posts_are_no_mail_posts evs :
  Forall (fun e => forall rq reply, e = EvPost rq reply -> url rq = token_url)
    evs ->
  filter (fun e => is_mail_post e = true) evs = [].
Proof.
  induction 1 as [|e evs He _ IH]; [done|].
  rewrite filter_cons_False; [done|].
  destruct e as [|rq reply| | | |]; simpl; try done.
  rewrite (He rq reply eq_refl). by vm_compute.
Qed.

(** X12: sending for an identity without any stored record: the endpoint
    raises [HTTPException(404)] after the selection alone; no request is
    posted, to the identity provider or to the mail provider, and nothing is
    written. *)
Theorem gmail_send_not_authorized E rq w :
  (forall r, r ∈ gmail_tokens w ->
             user_email r <> SendEmailRequest.user_email rq) ->
  gmail_send E rq w =
  (Raise (HTTPException 404 (JStr (py "User has no stored Gmail tokens"))),
   extend w [EvSelectTokens (SendEmailRequest.user_email rq)] [] []).
Proof.
  intros H. unfold gmail_send, send_gmail_message, bind.
  rewrite refresh_gmail_token_unfold, (latest_record_None _ _ H). same_world.
Qed.

Lemma gmail_send_not_authorized_witness :
  let rq := {| SendEmailRequest.user_email := alice;
               SendEmailRequest.to := py "x@y.com";
               SendEmailRequest.subject := py "Hi";
               SendEmailRequest.message := py "Body" |} in
  let w := store_of [row_of bob 5000 10] in
  gmail_send (answer tokens_A2 200) rq w =
  (Raise (HTTPException 404 (JStr (py "User has no stored Gmail tokens"))),
   extend w [EvSelectTokens alice] [] []).
Proof.
  intros rq w. apply (gmail_send_not_authorized (answer tokens_A2 200) rq w).
  intros r Hr%list_elem_of_singleton. subst r. vm_compute. discriminate.
Defined.

(** X13: a lone surrogate in the recipient, the subject or the body makes
    [send_gmail_message] raise [UnicodeEncodeError] once the token is
    there: no request is posted to the mail provider, and what the token
    refresh did (a new row, if it refreshed) stays. *)
Theorem send_rejects_surrogate E email to_addr subj msg w a w1 c :
  refresh_gmail_token E email w = (Ok a, w1) ->
  c ∈ to_addr ++ subj ++ msg ->
  surrogate c ->
  send_gmail_message E email to_addr subj msg w =
  (Raise UnicodeEncodeError, w1).
Proof.
  intros Hr Hin Hc. unfold send_gmail_message, bind, lift. rewrite Hr.
  rewrite (utf8_encode_surrogate _ c); [done| |done].
  unfold raw_email. rewrite !elem_of_app in *. tauto.
Qed.

Lemma send_rejects_surrogate_witness :
  let E := answer tokens_A2 200 in
  let w := store_of [row_of alice 5000 10] in
  send_gmail_message E alice (py "x@y.com") [72; 0xD83D]%N (py "Body") w =
  (Raise UnicodeEncodeError,
   emit (EvTime (inject_Z 1000)) (emit (EvSelectTokens alice) w)).
Proof.
  intros E w.
  apply (send_rejects_surrogate E alice (py "x@y.com") [72; 0xD83D]%N
           (py "Body") w (JStr (py "A1")) _ 0xD83D%N).
  - vm_compute. reflexivity.
  - rewrite !elem_of_app. right. left. right. left.
  - unfold surrogate. lia.
Defined.

(** X14: an answer to the send request whose body is not JSON makes
    [send_gmail_message] raise the decoder's exception, whatever the status
    of the answer, 200 included: the request was posted all the same. *)
Theorem send_answer_not_json E email to_addr subj msg w a w1 bs resp e :
  refresh_gmail_token E email w = (Ok a, w1) ->
  utf8_encode (raw_email to_addr subj msg) = Ok bs ->
  let rq := send_request E (urlsafe_b64encode bs) a in
  requests_post E (now w1) rq = Ok resp ->
  json resp = Raise e ->
  send_gmail_message E email to_addr subj msg w =
  (Raise e, emit (EvPost rq (Ok resp)) w1).
Proof.
  intros Hr Hb rq Hp Hj. subst rq.
  rewrite (send_gmail_message_run _ _ _ _ _ _ _ _ _ Hr Hb), Hp, Hj. done.
Qed.

Lemma send_answer_not_json_witness :
  let E := answer_not_json 200 in
  let w := store_of [row_of alice 5000 10] in
  let w1 := emit (EvTime (inject_Z 1000)) (emit (EvSelectTokens alice) w) in
  let bs := raw_email (py "x@y.com") (py "Hi") (py "Body") in
  send_gmail_message E alice (py "x@y.com") (py "Hi") (py "Body") w =
  (Raise JSONDecodeError,
   emit (EvPost (send_request E (urlsafe_b64encode bs) (JStr (py "A1")))
           (Ok {| status_code := 200; json := Raise JSONDecodeError |})) w1).
Proof.
  intros E w w1 bs.
  apply (send_answer_not_json E alice (py "x@y.com") (py "Hi") (py "Body") w
           (JStr (py "A1")) w1 bs
           {| status_code := 200; json := Raise JSONDecodeError |}
           JSONDecodeError).
  - vm_compute. reflexivity.
  - vm_compute. reflexivity.
  - reflexivity.
  - reflexivity.
Defined.

(** X15: a send that finds the stored token expired uses the refreshed one.
    When the refresh exchange succeeds, the request to the mail provider
    carries [Bearer <new access token>], and the new row is in the store
    whatever the mail provider then answers. *)
Theorem send_uses_refreshed_token E email to_addr subj msg w r resp d a x n bs :
  latest_record email (gmail_tokens w) = Some r ->
  (inject_Z (expires_at r) <= time_time E (1 + now w))%Q ->
  requests_post E (2 + now w) (refresh_request E r) = Ok resp ->
  json resp = Ok (JDict d) ->
  d !! py "access_token" = Some a ->
  d !! py "expires_in" = Some x ->
  py_int E x = Ok n ->
  utf8_encode (raw_email to_addr subj msg) = Ok bs ->
  let run := send_gmail_message E email to_addr subj msg w in
  let rq := send_request E (urlsafe_b64encode bs) a in
  exists row,
    access_token row = a /\
    gmail_tokens run.2 = gmail_tokens w ++ [row] /\
    new_events w run.2 =
      [EvSelectTokens email;
       EvTime (time_time E (1 + now w));
       EvPost (refresh_request E r) (Ok resp);
       EvTime (time_time E (3 + now w));
       EvInsertToken row;
       EvPost rq (requests_post E (5 + now w) rq)] /\
    headers rq = [ (py "Authorization", py "Bearer " ++ format_value E a);
                   (py "Content-Type", py "application/json") ].
Proof.
  intros Hl Ht Hp Hj Ha Hx Hn Hb run rq. subst run. cbn [Nat.add] in *.
  assert (exists w1,
            refresh_gmail_token E email w = (Ok a, w1) /\
            now w1 = S (S (S (S (S (now w))))) /\
            gmail_tokens w1 =
              gmail_tokens w ++
              [refreshed_row E email r a n (emit (EvSelectTokens email) w)] /\
            trace w1 =
              trace w ++
              [EvSelectTokens email;
               EvTime (time_time E (S (now w)));
               EvPost (refresh_request E r) (Ok resp);
               EvTime (time_time E (S (S (S (now w)))));
               EvInsertToken
                 (refreshed_row E email r a n (emit (EvSelectTokens email) w))])
    as (w1 & Hrun & Hnow & Htok & Htr).
  { eexists. rewrite refresh_gmail_token_unfold, Hl.
    erewrite refresh_from_record_success by (rewrite ?now_emit; eauto).
    split; [reflexivity|]. cbn [gmail_tokens trace]. rewrite !now_emit.
    split; [|split; [done|]].
    - unfold now, emit. cbn [trace]. rewrite !length_app. simpl. lia.
    - unfold emit. cbn [trace Nat.add]. by rewrite <- app_assoc. }
  rewrite (send_gmail_message_run _ _ _ _ _ _ _ _ _ Hrun Hb). cbn [snd].
  eexists. split; [|split; [exact Htok|split; [|done]]]; [done|].
  apply new_events_app. unfold emit. cbn [trace]. rewrite Htr, Hnow.
  by rewrite <- app_assoc.
Qed.

Lemma send_uses_refreshed_token_witness :
  let E := answer tokens_A2 200 in
  let bs := raw_email (py "x@y.com") (py "Hi") (py "Body") in
  let run := send_gmail_message E alice (py "x@y.com") (py "Hi") (py "Body") w0 in
  let rq := send_request E (urlsafe_b64encode bs) (JStr (py "A2")) in
  exists row,
    access_token row = JStr (py "A2") /\
    gmail_tokens run.2 = [old_row; row] /\
    new_events w0 run.2 =
      [EvSelectTokens alice;
       EvTime (inject_Z 1000);
       EvPost (refresh_request E old_row)
         (Ok {| status_code := 200; json := Ok (JDict tokens_A2) |});
       EvTime (inject_Z 1002);
       EvInsertToken row;
       EvPost rq (Ok {| status_code := 200; json := Ok (JDict tokens_A2) |})] /\
    headers rq = [ (py "Authorization", py "Bearer A2");
                   (py "Content-Type", py "application/json") ].
Proof.
  intros E bs run rq.
  apply (send_uses_refreshed_token E alice (py "x@y.com") (py "Hi")
           (py "Body") w0 old_row
           {| status_code := 200; json := Ok (JDict tokens_A2) |}
           tokens_A2 (JStr (py "A2")) (JInt 3600) 3600 bs).
  - reflexivity.
  - vm_compute. discriminate.
  - reflexivity.
  - reflexivity.
  - vm_compute. reflexivity.
  - vm_compute. reflexivity.
  - reflexivity.
  - vm_compute. reflexivity.
Defined.

(** X16: the send endpoint never reports a message as sent unless the mail
    provider answered the send request with status 200, and what it
    returns is then [{"status": "sent", "response": <the provider's
    JSON>}].  In every run at most one request goes to the send URL (a
    send is never retried), and [email_logs] is untouched. *)
Theorem gmail_send_sound E rq w :
  let run := gmail_send E rq w in
  exists evs rows,
    run.2 = extend w evs rows [] /\
    (length (filter (fun e => is_mail_post e = true) evs) <= 1)%nat /\
    (forall v, run.1 = Ok v ->
       exists payload a resp j,
         In (EvPost (send_request E payload a) (Ok resp)) evs /\
         status_code resp = 200 /\ json resp = Ok j /\ v = sent j).
Proof.
  intros run. subst run. unfold gmail_send.
  set (email := SendEmailRequest.user_email rq).
  set (to_addr := SendEmailRequest.to rq).
  set (subj := SendEmailRequest.subject rq).
  set (msg := SendEmailRequest.message rq).
  destruct (refresh_gmail_token_cases E email w)
    as (res & evs & rows & Hrun & _ & Hposts & _ & _).
  pose proof (token_posts_are_no_mail_posts evs Hposts) as Hnone.
  destruct res as [a|e].
  2:{ exists evs, rows. unfold bind, send_gmail_message, bind. rewrite Hrun.
      rewrite Hnone. split; [done|]. split; [simpl; lia|discriminate]. }
  destruct (utf8_encode (raw_email to_addr subj msg)) as [bs|e] eqn:Hb.
  2:{ exists evs, rows. unfold bind, send_gmail_message, bind, lift.
      rewrite Hrun, Hb. rewrite Hnone.
      split; [done|]. split; [simpl; lia|discriminate]. }
  set (mail := send_request E (urlsafe_b64encode bs) a).
  set (reply := requests_post E (now (extend w evs rows [])) mail).
  exists (evs ++ [EvPost mail reply]), rows.
  unfold bind.
  rewrite (send_gmail_message_run _ _ _ _ _ _ _ _ _ Hrun Hb).
  fold mail. fold reply. rewrite filter_app, Hnone.
  split; [|split].
  - destruct reply as [resp|e]; [destruct (json resp) as [j|e];
      [destruct (shown j); [destruct (status_code resp =? 200)|]|]|];
      same_world.
  - rewrite filter_cons. case_decide; simpl; lia.
  - destruct reply as [resp|e]; [|by cbn].
    destruct (json resp) as [j|e] eqn:Hj; [|by cbn].
    destruct (shown j); [|by cbn].
    destruct (Z.eqb_spec (status_code resp) 200) as [H200|]; [|by cbn].
    cbn -[py]. intros v [= <-]. exists (urlsafe_b64encode bs), a, resp, j.
    split; [apply in_app_iff; right; by left|done].
Qed.

(** ** Further properties of the email webhook *)

(** X20: [process_email] asks for a completion exactly once, also when the
    call fails (it is not retried), and performs no other effect before the
    log row: no HTTP request, no look at the clock or at [gmail_tokens].
    Then either it inserts one log row and returns, or, the generation
    having failed with an exception whose text the standard output cannot
    encode, it raises [UnicodeEncodeError] and inserts nothing. *)
Theorem process_email_effects E payload w :
  let outcome := chat_completions_create E (now w) (draft_request payload) in
  let run := process_email E payload w in
  (exists row v,
     run.1 = Ok v /\
     new_events w run.2 =
       [EvChat (draft_request payload) outcome; EvInsertLog row] /\
     email_logs run.2 = email_logs w ++ [row]) \/
  (exists e,
     outcome = Raise e /\
     utf8_encode (exn_text E e) = Raise UnicodeEncodeError /\
     run.1 = Raise UnicodeEncodeError /\
     new_events w run.2 = [EvChat (draft_request payload) outcome] /\
     email_logs run.2 = email_logs w).
Proof.
  intros outcome run. subst run.
  unfold process_email, bind, try_except, chat_create, print_text, lift, ret,
    insert_log.
  fold outcome. unfold new_events.
  destruct outcome as [c|e]; cbn -[py written exn_text];
    [destruct (choices c) as [|ch ?]|]; cbn -[py written exn_text].
  - change (exn_text E IndexError) with (py "list index out of range").
    rewrite written_index_error. cbn -[py]. left. eexists _, _.
    rewrite <- app_assoc, drop_app_length. done.
  - left. eexists _, _. rewrite <- app_assoc, drop_app_length. done.
  - unfold written.
    destruct (utf8_encode (exn_text E e)) as [bs|e'] eqn:Hu; cbn -[py].
    + left. eexists _, _. rewrite <- app_assoc, drop_app_length. done.
    + pose proof (utf8_encode_raises _ _ Hu) as ->. right. exists e.
      rewrite drop_app_length. done.
Qed.

(** X21: the fallback is for failures only.  A completion whose first
    choice has no content ([message.content] is [None]) is logged and
    returned as it is: the reply is [null], with status ["draft"]. *)
Theorem process_email_null_content E payload w c ch rest :
  chat_completions_create E (now w) (draft_request payload) = Ok c ->
  choices c = ch :: rest ->
  message_content (message ch) = None ->
  let run := process_email E payload w in
  run.1 = Ok (JDict (<[py "status" := JStr (py "draft")]>
                      (<[py "reply" := JNull]> ∅))) /\
  exists row,
    email_logs run.2 = email_logs w ++ [row] /\
    EmailLog.ai_reply row = None /\ EmailLog.status row = py "draft".
Proof.
  intros Hc Hch Hm run. subst run.
  unfold process_email, bind, try_except, chat_create, lift, ret, insert_log.
  rewrite Hc. cbn -[py]. rewrite Hch. cbn -[py]. rewrite Hm.
  split; [done|]. by eexists.
Qed.

Lemma process_email_null_content_witness :
  let c := {| choices := [ {| message := {| message_content := None |} |} ] |} in
  let E := env_of (Raise RequestException) (Ok c) in
  let payload := {| EmailPayload.inbox_id := py "inbox-1";
                    EmailPayload.sender := py "x@y.com";
                    EmailPayload.subject := py "Hi";
                    EmailPayload.body := py "Body" |} in
  let run := process_email E payload (store_of []) in
  run.1 = Ok (JDict (<[py "status" := JStr (py "draft")]>
                      (<[py "reply" := JNull]> ∅))) /\
  exists row,
    email_logs run.2 = [] ++ [row] /\
    EmailLog.ai_reply row = None /\ EmailLog.status row = py "draft".
Proof.
  intros c E payload run.
  apply (process_email_null_content E payload (store_of []) c
           {| message := {| message_content := None |} |} []);
    reflexivity.
Defined.

(** ** The stored expiry *)

Lemma trunc_bounds t :
  (0 <= t)%Q -> (inject_Z (trunc t) <= t)%Q /\ (t < inject_Z (trunc t) + 1)%Q.
Proof.
  destruct t as [p q]. unfold Qle, Qlt, trunc, inject_Z; simpl.
  rewrite !Z.mul_1_r. intros Hp.
  pose proof (Z.quot_rem' p (Z.pos q)) as Hqr.
  pose proof (Z.rem_bound_pos p (Z.pos q) Hp ltac:(lia)) as Hr.
  nia.
Qed.

(** X22: the row a successful refresh writes never overstates the life of
    the token: with the clock at [t] (not before the epoch) when
    [expires_at] is computed and [n = int(expires_in)], the stored
    [expires_at] is at most [t + n], and less than a second below it. *)
Theorem refresh_expiry_bounds E email w r resp d a x n :
  latest_record email (gmail_tokens w) = Some r ->
  (inject_Z (expires_at r) <= time_time E (1 + now w))%Q ->
  requests_post E (2 + now w) (refresh_request E r) = Ok resp ->
  json resp = Ok (JDict d) ->
  d !! py "access_token" = Some a ->
  d !! py "expires_in" = Some x ->
  py_int E x = Ok n ->
  let t := time_time E (3 + now w) in
  (0 <= t)%Q ->
  exists row,
    last (gmail_tokens (refresh_gmail_token E email w).2) = Some row /\
    (inject_Z (expires_at row) <= t + inject_Z n)%Q /\
    (t + inject_Z n - 1 < inject_Z (expires_at row))%Q.
Proof.
  intros Hl Ht Hp Hj Ha Hx Hn t H0. cbn [Nat.add] in *.
  rewrite refresh_gmail_token_unfold, Hl.
  erewrite refresh_from_record_success by (rewrite ?now_emit; eauto).
  eexists. cbn [snd gmail_tokens]. split; [apply last_snoc|].
  unfold refreshed_row. cbn [expires_at Nat.add]. rewrite now_emit. fold t.
  destruct (trunc_bounds t H0) as [H1 H2]. rewrite inject_Z_plus.
  split; lra.
Qed.

Lemma refresh_expiry_bounds_witness :
  let E := answer tokens_A2 200 in
  exists row,
    last (gmail_tokens (refresh_gmail_token E alice w0).2) = Some row /\
    (inject_Z (expires_at row) <= inject_Z 1002 + inject_Z 3600)%Q /\
    (inject_Z 1002 + inject_Z 3600 - 1 < inject_Z (expires_at row))%Q.
Proof.
  intros E.
  apply (refresh_expiry_bounds E alice w0 old_row
           {| status_code := 200; json := Ok (JDict tokens_A2) |}
           tokens_A2 (JStr (py "A2")) (JInt 3600) 3600).
  - reflexivity.
  - vm_compute. discriminate.
  - reflexivity.
  - reflexivity.
  - vm_compute. reflexivity.
  - vm_compute. reflexivity.
  - reflexivity.
  - vm_compute. discriminate.
Defined.

(** ** URL encoding: what a receiver reads back *)

Section UrlEncoding.

#[local] Open Scope N_scope.

Lemma quote_check_all : all_below 256 quote_check = true.
Proof. vm_compute. reflexivity. Qed.

Lemma separator_check_all : all_below 128 separator_check = true.
Proof. vm_compute. reflexivity. Qed.

Lemma query_char_ascii c : query_char c = true -> c < 128.
Proof.
  unfold query_char, always_safe.
  rewrite !orb_true_iff, !andb_true_iff, !N.leb_le, !N.eqb_eq. lia.
Qed.

Lemma query_char_no_separator c : query_char c = true -> c <> 38 /\ c <> 61.
Proof.
  intros H. pose proof (query_char_ascii c H) as Hc.
  pose proof (all_below_spec _ _ separator_check_all c Hc) as F.
  unfold separator_check in F. rewrite H in F.
  apply andb_prop in F as [F1%negb_true_iff%N.eqb_neq F2%negb_true_iff%N.eqb_neq].
  done.
Qed.

Lemma quote_byte_chars b :
  b < 256 -> Forall (fun c => query_char c = true) (quote_byte b).
Proof.
  intros Hb. pose proof (all_below_spec _ _ quote_check_all b Hb) as F.
  apply andb_prop in F as [F _]. apply Forall_forall.
  intros c Hc%list_elem_of_In. exact (proj1 (forallb_forall _ _) F c Hc).
Qed.

Lemma unquote_bytes_quote_byte b rest :
  b < 256 ->
  unquote_bytes (quote_byte b ++ rest) =
  match unquote_bytes rest with
  | Some bs => Some (b :: bs)
  | None => None
  end.
Proof.
  intros Hb. pose proof (all_below_spec _ _ quote_check_all b Hb) as F.
  apply andb_prop in F as [_ F]. unfold quote_byte.
  destruct (always_safe b).
  - apply andb_prop in F as [F1%negb_true_iff F2%negb_true_iff].
    cbn [app unquote_bytes]. by rewrite F1, F2.
  - destruct (N.eqb_spec b 32) as [->|_]; [done|].
    apply andb_prop in F as [F F3%N.eqb_eq].
    apply andb_prop in F as [F1%is_some_N_spec F2%is_some_N_spec].
    cbn [app unquote_bytes]. rewrite N.eqb_refl, F1, F2, F3. done.
Qed.

Lemma unquote_bytes_quote bs :
  Forall (fun b => b < 256) bs ->
  unquote_bytes (concat (map quote_byte bs)) = Some bs.
Proof.
  induction 1 as [|b bs Hb _ IH]; [done|]. cbn [map concat].
  by rewrite unquote_bytes_quote_byte, IH.
Qed.

Lemma quote_plus_chars s q :
  quote_plus s = Ok q -> Forall (fun c => query_char c = true) q.
Proof.
  unfold quote_plus. destruct (utf8_encode s) as [bs|] eqn:Hb; [|done].
  intros [= <-]. apply utf8_encode_bytes in Hb.
  induction Hb as [|b bs Hb _ IH]; [constructor|]. cbn [map concat].
  apply Forall_app. split; [by apply quote_byte_chars|done].
Qed.

Lemma unquote_plus_quote_plus s q : quote_plus s = Ok q -> unquote_plus q = Some s.
Proof.
  unfold quote_plus, unquote_plus.
  destruct (utf8_encode s) as [bs|] eqn:Hb; [|done]. intros [= <-].
  rewrite unquote_bytes_quote by (by eapply utf8_encode_bytes).
  by rewrite (utf8_decode_encode _ _ Hb).
Qed.

Lemma split_first_app sep k v :
  Forall (fun c => c <> sep) k -> split_first sep (k ++ sep :: v) = Some (k, v).
Proof.
  induction 1 as [|c k Hc _ IH]; simpl.
  - by rewrite N.eqb_refl.
  - apply N.eqb_neq in Hc as ->. by rewrite IH.
Qed.

Lemma split_on_app sep x rest :
  Forall (fun c => c <> sep) x ->
  split_on sep (x ++ sep :: rest) = x :: split_on sep rest.
Proof.
  induction 1 as [|c x Hc _ IH]; simpl.
  - by rewrite N.eqb_refl.
  - apply N.eqb_neq in Hc as ->. by rewrite IH.
Qed.

Lemma split_on_whole sep x : Forall (fun c => c <> sep) x -> split_on sep x = [x].
Proof.
  induction 1 as [|c x Hc _ IH]; simpl; [done|].
  apply N.eqb_neq in Hc as ->. by rewrite IH.
Qed.

Lemma split_on_join sep l :
  l <> [] -> Forall (Forall (fun c => c <> sep)) l ->
  split_on sep (join [sep] l) = l.
Proof.
  intros Hne H. induction H as [|x l Hx Hl IH]; [done|].
  destruct l as [|y l]; [by apply split_on_whole|].
  change (join [sep] (x :: y :: l)) with (x ++ sep :: join [sep] (y :: l)).
  rewrite split_on_app by done. by rewrite IH.
Qed.

(** What a receiver reads from the text of one pair. *)
Lemma parse_pair_quoted k v k' v' :
  quote_plus k = Ok k' -> quote_plus v = Ok v' ->
  parse_pair (k' ++ 61 :: v') = Some (k, v).
Proof.
  intros Hk Hv. unfold parse_pair.
  rewrite split_first_app.
  - by rewrite (unquote_plus_quote_plus _ _ Hk), (unquote_plus_quote_plus _ _ Hv).
  - eapply Forall_impl; [by eapply quote_plus_chars|].
    intros c Hc. by apply query_char_no_separator.
Qed.

Lemma urlencode_pairs_round_trip query l :
  urlencode_pairs query = Ok l ->
  Forall (Forall (fun c => c <> 38)) l /\
  mapM parse_pair l = Some (map (fun p => (p.1, str_optional p.2)) query).
Proof.
  revert l. induction query as [|[k v] query IH]; intros l; simpl.
  - by intros [= <-].
  - destruct (quote_plus k) as [k'|] eqn:Hk; [|done].
    destruct (quote_plus (str_optional v)) as [v'|] eqn:Hv; [|done].
    destruct (urlencode_pairs query) as [l'|]; [|done]. intros [= <-].
    destruct (IH l' eq_refl) as [Hsep Hparse]. split.
    + constructor; [|done]. apply Forall_app. split; [|constructor; [done|]].
      * eapply Forall_impl; [by eapply quote_plus_chars|].
        intros c Hc. by apply query_char_no_separator.
      * eapply Forall_impl; [by eapply quote_plus_chars|].
        intros c Hc. by apply query_char_no_separator.
    + cbn [mapM]. rewrite (parse_pair_quoted _ _ _ _ Hk Hv). cbn.
      by rewrite Hparse.
Qed.

Lemma urlencode_round_trip query q :
  query <> [] ->
  urlencode query = Ok q ->
  parse_query q = Some (map (fun p => (p.1, str_optional p.2)) query).
Proof.
  intros Hne. unfold urlencode, parse_query.
  destruct (urlencode_pairs query) as [l|] eqn:Hl; [|done]. intros [= <-].
  destruct (urlencode_pairs_round_trip _ _ Hl) as [Hsep Hparse].
  rewrite split_on_join; [done| |done].
  destruct query as [|[k v] query]; [done|]. simpl in Hl.
  repeat case_match; try done. by injection Hl as <-.
Qed.

End UrlEncoding.

(** ** Properties of the authorization URL *)

Lemma urlencode_raises query e : urlencode query = Raise e -> e = UnicodeEncodeError.
Proof.
  unfold urlencode.
  assert (forall e, urlencode_pairs query = Raise e -> e = UnicodeEncodeError)
    as H.
  { induction query as [|[k v] query IH]; intros e'; simpl; [done|].
    unfold quote_plus.
    destruct (utf8_encode k) eqn:Hk;
      [|intros [= <-]; by eapply utf8_encode_raises].
    destruct (utf8_encode (str_optional v)) eqn:Hv;
      [|intros [= <-]; by eapply utf8_encode_raises].
    destruct (urlencode_pairs query); [done|]. intros [= <-]. by apply IH. }
  destruct (urlencode_pairs query); [done|]. intros [= <-]. by apply H.
Qed.

Lemma urlencode_encodable query :
  Forall (fun p => encodable p.1 /\ encodable (str_optional p.2)) query ->
  exists q, urlencode query = Ok q.
Proof.
  intros H. unfold urlencode.
  assert (exists l, urlencode_pairs query = Ok l) as [l ->]; [|by eexists].
  induction H as [|[k v] query [[bk Hk] [bv Hv]] _ [l IH]]; [by eexists|].
  simpl in *. unfold quote_plus. rewrite Hk, Hv, IH. by eexists.
Qed.

Lemma urlencode_chars query q :
  urlencode query = Ok q -> Forall (fun c => url_char c = true) q.
Proof.
  assert (forall c, query_char c = true -> url_char c = true) as Hq
    by (intros c Hc; unfold url_char; by rewrite Hc).
  unfold urlencode.
  destruct (urlencode_pairs query) as [l|] eqn:Hl; [|done]. intros [= <-].
  assert (Forall (Forall (fun c => url_char c = true)) l) as H.
  { revert l Hl. induction query as [|[k v] query IH]; intros l; simpl.
    - intros [= <-]. constructor.
    - destruct (quote_plus k) as [k'|] eqn:Hk; [|done].
      destruct (quote_plus (str_optional v)) as [v'|] eqn:Hv; [|done].
      destruct (urlencode_pairs query) as [l'|]; [|done]. intros [= <-].
      constructor; [|by apply IH].
      apply Forall_app. split; [|constructor; [done|]];
        (eapply Forall_impl; [by eapply quote_plus_chars|done]). }
  clear Hl. induction H as [|x l Hx Hl IH]; [constructor|].
  destruct l as [|y l]; [done|].
  change (join [38%N] (x :: y :: l)) with (x ++ 38%N :: join [38%N] (y :: l)).
  apply Forall_app. split; [done|]. by constructor.
Qed.

(** X17: the authorization URL is refused exactly when the configuration
    is incomplete: [connect_gmail] raises [HTTPException(500)] if and only
    if the client id or the redirect URI is unset or empty; the path
    parameter plays no part. *)
Theorem connect_gmail_needs_configuration E client_id :
  connect_gmail E client_id =
    Raise (HTTPException 500
             (JStr (py "Google OAuth environment variables missing")))
  <->
  GOOGLE_CLIENT_ID E = None \/ GOOGLE_CLIENT_ID E = Some [] \/
  GOOGLE_REDIRECT_URI E = None \/ GOOGLE_REDIRECT_URI E = Some [].
Proof.
  unfold connect_gmail.
  destruct (GOOGLE_CLIENT_ID E) as [[|c id]|] eqn:Hid;
    destruct (GOOGLE_REDIRECT_URI E) as [[|c' uri]|] eqn:Huri; cbn [falsy orb];
    try (split; [intros _|intros _; reflexivity]; tauto).
  split; [|intros [|[|[|]]]; discriminate].
  destruct (urlencode (oauth_params E)) as [q|e] eqn:Hq; [discriminate|].
  apply urlencode_raises in Hq as ->. discriminate.
Qed.

(** X18: with a client id and a redirect URI configured (not empty, and
    encodable in UTF-8), [connect_gmail] returns, for every path parameter,
    the provider's authorization endpoint followed by [?] and a query that
    a receiver parses back into exactly six parameters: the configured
    client id and redirect URI, whatever characters they hold, and the fixed
    [response_type=code], [access_type=offline], [prompt=consent] and the
    gmail.send scope. *)
Theorem connect_gmail_url_round_trip E client_id id uri :
  GOOGLE_CLIENT_ID E = Some id -> id <> [] ->
  GOOGLE_REDIRECT_URI E = Some uri -> uri <> [] ->
  encodable id -> encodable uri ->
  exists q,
    connect_gmail E client_id =
      Ok (JDict (<[py "oauth_url" :=
                     JStr (py "https://accounts.google.com/o/oauth2/v2/auth"
                           ++ py "?" ++ q)]> ∅)) /\
    parse_query q =
      Some [ (py "client_id", id);
             (py "redirect_uri", uri);
             (py "response_type", py "code");
             (py "access_type", py "offline");
             (py "prompt", py "consent");
             (py "scope", py "https://www.googleapis.com/auth/gmail.send") ].
Proof.
  intros Hid Hne Huri Hne' Heid Heuri.
  destruct (urlencode_encodable (oauth_params E)) as [q Hq].
  { unfold oauth_params. rewrite Hid, Huri.
    repeat constructor; try done; eexists; vm_compute; reflexivity. }
  exists q. split.
  - unfold connect_gmail. rewrite Hid, Huri, Hq.
    destruct id, uri; done.
  - rewrite (urlencode_round_trip (oauth_params E) q) by done.
    unfold oauth_params. by rewrite Hid, Huri.
Qed.

Lemma connect_gmail_url_round_trip_witness :
  let E := {| GOOGLE_CLIENT_ID := Some (py "my id&scope=all");
              GOOGLE_CLIENT_SECRET := None;
              GOOGLE_REDIRECT_URI := Some (py "https://app.example.com/cb?x=1");
              time_time := fun _ => 0%Q;
              requests_post := fun _ _ => Raise RequestException;
              store_now := fun _ => 0;
              chat_completions_create := fun _ _ => Raise OpenAIError;
              int_of_str := fun _ => Raise ValueError;
              str_of := fun _ => [];
              str_exn := fun _ => [] |} in
  exists q,
    connect_gmail E (py "42") =
      Ok (JDict (<[py "oauth_url" :=
                     JStr (py "https://accounts.google.com/o/oauth2/v2/auth"
                           ++ py "?" ++ q)]> ∅)) /\
    parse_query q =
      Some [ (py "client_id", py "my id&scope=all");
             (py "redirect_uri", py "https://app.example.com/cb?x=1");
             (py "response_type", py "code");
             (py "access_type", py "offline");
             (py "prompt", py "consent");
             (py "scope", py "https://www.googleapis.com/auth/gmail.send") ].
Proof.
  intros E.
  apply (connect_gmail_url_round_trip E (py "42") (py "my id&scope=all")
           (py "https://app.example.com/cb?x=1"));
    try reflexivity; try discriminate; eexists; vm_compute; reflexivity.
Defined.

(** X19: whatever the configuration holds (spaces, line breaks, non-ASCII
    text), a URL that [connect_gmail] returns is made of ASCII letters and
    digits and of [_ . - ~ % + & = : / ?] only. *)
Theorem connect_gmail_url_chars E client_id v :
  connect_gmail E client_id = Ok v ->
  exists u,
    v = JDict (<[py "oauth_url" := JStr u]> ∅) /\
    Forall (fun c => url_char c = true) u.
Proof.
  unfold connect_gmail.
  destruct (falsy (GOOGLE_CLIENT_ID E) || falsy (GOOGLE_REDIRECT_URI E));
    [done|].
  destruct (urlencode (oauth_params E)) as [q|] eqn:Hq; [|done].
  intros [= <-]. exists (base_url ++ py "?" ++ q). split; [reflexivity|].
  apply Forall_app. split; [|apply Forall_app; split;
                              [|by eapply urlencode_chars]].
  - apply Forall_forall. intros c Hc%list_elem_of_In.
    assert (forallb url_char base_url = true) as H by (vm_compute; reflexivity).
    exact (proj1 (forallb_forall _ _) H c Hc).
  - by repeat constructor.
Qed.

Lemma connect_gmail_url_chars_witness :
  let E := answer tokens_A2 200 in
  let u := py "https://accounts.google.com/o/oauth2/v2/auth?client_id=id&redirect_uri=https%3A%2F%2Fapp.example.com%2Fcb&response_type=code&access_type=offline&prompt=consent&scope=https%3A%2F%2Fwww.googleapis.com%2Fauth%2Fgmail.send" in
  exists u',
    JDict (<[py "oauth_url" := JStr u]> ∅) =
      JDict (<[py "oauth_url" := JStr u']> ∅) /\
    Forall (fun c => url_char c = true) u'.
Proof.
  intros E u.
  apply (connect_gmail_url_chars E (py "any") (JDict (<[py "oauth_url" := JStr u]> ∅))).
  vm_compute. reflexivity.
Defined.

(** The model of [urlencode] agrees with the library on sample inputs. *)
Example urlencode_samples :
  urlencode [ (py "client_id",
               Some [97; 32; 98; 43; 99; 38; 100; 61; 101; 47; 233; 126; 95;
                     46; 45]%N);
              (py "x", None) ] =
    Ok (py "client_id=a+b%2Bc%26d%3De%2F%C3%A9~_.-&x=None") /\
  quote_plus [] = Ok [] /\
  quote_plus [127; 0]%N = Ok (py "%7F%00").
Proof. repeat split; vm_compute; reflexivity. Qed.

Example connect_gmail_sample :
  connect_gmail (answer tokens_A2 200) (py "42") =
  Ok (JDict (<[py "oauth_url" :=
                 JStr (py "https://accounts.google.com/o/oauth2/v2/auth?client_id=id&redirect_uri=https%3A%2F%2Fapp.example.com%2Fcb&response_type=code&access_type=offline&prompt=consent&scope=https%3A%2F%2Fwww.googleapis.com%2Fauth%2Fgmail.send")]> ∅)).
Proof. vm_compute. reflexivity. Qed.
